(** * Monitor: the CT-e document workflow

    A shallow embedding of the task executor (tasks.js), of the scheduler
    (monitor.js) and of the configuration they read (config.js).

    The executor and the scheduler are asynchronous JavaScript classes that
    mutate their own fields, touch the file system, call the record store
    over HTTP, sleep, and throw.  They are embedded as computations in a
    state-and-exception monad over a system state that holds the executor
    object, the environment (file system, clock, behaviour of the store)
    and the trace of the calls the code issued. *)

From stdpp Require Import gmap strings list fin_maps pretty.
From Stdlib Require Import ZArith Lia.

Open Scope string_scope.
Open Scope list_scope.

(** ** JavaScript [Map]

    A [Map] iterates in insertion order; [set] on a present key replaces the
    value in place, on an absent key appends.  The executor's registry of
    files awaiting processing is such a map and is scanned in order. *)

Module JsMap.
Section JsMap.
Context {K V : Type} `{EqDecision K}.

Fixpoint set (k : K) (v : V) (m : list (K * V)) : list (K * V) :=
  match m with
  | [] => [(k, v)]
  | (k', v') :: m' =>
      if decide (k' = k) then (k, v) :: m' else (k', v') :: set k v m'
  end.

Fixpoint get (k : K) (m : list (K * V)) : option V :=
  match m with
  | [] => None
  | (k', v') :: m' => if decide (k' = k) then Some v' else get k m'
  end.

Fixpoint delete (k : K) (m : list (K * V)) : list (K * V) :=
  match m with
  | [] => []
  | (k', v') :: m' =>
      if decide (k' = k) then delete k m' else (k', v') :: delete k m'
  end.

Definition size (m : list (K * V)) : nat := List.length m.

Definition keys (m : list (K * V)) : list K := map fst m.

(** What a real [Map] always satisfies: one binding per key. *)
Definition wf (m : list (K * V)) : Prop := NoDup (keys m).
End JsMap.
End JsMap.

(** ** config.js *)

Record ApiConfig := {
  checkInterval : Z
}.

Record TasksConfig := {
  retryAttempts : nat;
  retryDelay : Z
}.

Record XmlProcessingConfig := {
  sourceFolder : string;
  cnpjBasePath : string;
  processedFolder : string;
  checkProcessedInterval : Z;
  processingTimeout : Z
}.

Record Config := {
  api : ApiConfig;
  tasks : TasksConfig;
  xmlProcessing : XmlProcessingConfig
}.

(** The values written in config.js. *)
Definition default_config : Config := {|
  api := {| checkInterval := 60000 |};
  tasks := {| retryAttempts := 3; retryDelay := 2000 |};
  xmlProcessing := {|
    sourceFolder := "./xml/gerados";
    cnpjBasePath := "./xml/cnpj";
    processedFolder := "processados";
    checkProcessedInterval := 30000;
    processingTimeout := 600000
  |}
|}.

(** ** Data *)

(** A row of [cte_documentos] as the API returns it. *)
Record CteRecord := {
  id : Z;
  numero_cte : string;
  status : string
}.

(** An entry of [processingFiles]. *)
Record FileInfo := {
  fi_recordId : Z;
  numeroCtE : string;
  cnpj : string;
  processedPath : string;
  startTime : Z
}.

(** An entry of [runningTasks]. *)
Record RunningTask := {
  rt_recordId : Z;
  rt_startTime : Z
}.

Inductive Error :=
  | CnpjNotExtracted (chaveAcesso : string)
  | XmlNotFound (path : string)
  | ENOENT (path : string)
  | FsFault (path : string)
  | HttpError (recordId : Z)
  | TypeError (what : string)
  | FetchError.

(** The object [executeTask] resolves to. *)
Record TaskResult := {
  success : bool;
  recordId : Z;
  error : option Error
}.

(** The record store client (database.js). Only its identity matters to the
    executor and the scheduler. *)
Record ApiClient := {
  baseUrl : string
}.

(** The fields of a [TaskExecutor] object. A field the constructor does not
    assign is [undefined], here [None]. *)
Record TaskExecutor := {
  runningTasks : gmap string RunningTask;
  processingFiles : list (Z * FileInfo);
  processedFileInterval : option nat;
  retryCounters : option (gmap string nat);
  apiClient : option ApiClient
}.

(** Calls the code issues, in the order it issues them. *)
Inductive Event :=
  | TaskStarted (recordId : Z)   (* executeTask entered for the record *)
  | Delayed (ms : Z)             (* this.delay(ms) *)
  | StorePut (recordId : Z)      (* ApiClient.markAsProcessed: PUT request *)
  | Mkdir (dir : string)         (* fs.mkdir(dir, { recursive: true }) *)
  | Renamed (src dst : string)   (* fs.rename(src, dst) *)
  | RecordPicked (recordId : Z). (* DatabaseMonitor.processRecord entered *)

Global Instance Event_eq_dec : EqDecision Event.
Proof. solve_decision. Defined.

(** What the code cannot decide: the file system, the clock, which file
    system and HTTP calls fail, what the store returns. *)
Record Env := {
  files : gmap string string;
  dirs : gset string;
  now : Z;
  mkdir_fails : string -> bool;
  rename_fails : string -> string -> bool;
  read_fails : string -> bool;
  put_fails : Z -> bool;
  pending : option (list CteRecord)
}.

Inductive TimerKind := ScanTimer | MonitorTimer.

Global Instance TimerKind_eq_dec : EqDecision TimerKind.
Proof. solve_decision. Defined.

Record Timer := {
  handle : nat;
  kind : TimerKind;
  period : Z
}.

(** The fields of the [DatabaseMonitor] object. Its [taskExecutor] field
    refers to the one executor of the system state. *)
Record DatabaseMonitor := {
  mon_apiClient : ApiClient;
  isRunning : bool;
  monitorInterval : option nat;
  lastCheck : option Z;
  processedCount : nat
}.

Record Sys := {
  executor : TaskExecutor;
  monitor : DatabaseMonitor;
  env : Env;
  trace : list Event;
  timers : list Timer;
  nextHandle : nat
}.

(** Field updates. *)

Definition with_runningTasks (f : gmap string RunningTask -> gmap string RunningTask)
    (ex : TaskExecutor) : TaskExecutor :=
  {| runningTasks := f (runningTasks ex);
     processingFiles := processingFiles ex;
     processedFileInterval := processedFileInterval ex;
     retryCounters := retryCounters ex;
     apiClient := apiClient ex |}.

Definition with_processingFiles (f : list (Z * FileInfo) -> list (Z * FileInfo))
    (ex : TaskExecutor) : TaskExecutor :=
  {| runningTasks := runningTasks ex;
     processingFiles := f (processingFiles ex);
     processedFileInterval := processedFileInterval ex;
     retryCounters := retryCounters ex;
     apiClient := apiClient ex |}.

Definition with_processedFileInterval (h : option nat) (ex : TaskExecutor) : TaskExecutor :=
  {| runningTasks := runningTasks ex;
     processingFiles := processingFiles ex;
     processedFileInterval := h;
     retryCounters := retryCounters ex;
     apiClient := apiClient ex |}.

Definition with_retryCounters (c : option (gmap string nat)) (ex : TaskExecutor) : TaskExecutor :=
  {| runningTasks := runningTasks ex;
     processingFiles := processingFiles ex;
     processedFileInterval := processedFileInterval ex;
     retryCounters := c;
     apiClient := apiClient ex |}.

Definition with_executor (f : TaskExecutor -> TaskExecutor) (s : Sys) : Sys :=
  {| executor := f (executor s); monitor := monitor s; env := env s;
     trace := trace s; timers := timers s; nextHandle := nextHandle s |}.

Definition with_monitor (f : DatabaseMonitor -> DatabaseMonitor) (s : Sys) : Sys :=
  {| executor := executor s; monitor := f (monitor s); env := env s;
     trace := trace s; timers := timers s; nextHandle := nextHandle s |}.

Definition with_env (f : Env -> Env) (s : Sys) : Sys :=
  {| executor := executor s; monitor := monitor s; env := f (env s);
     trace := trace s; timers := timers s; nextHandle := nextHandle s |}.

Definition with_trace (f : list Event -> list Event) (s : Sys) : Sys :=
  {| executor := executor s; monitor := monitor s; env := env s;
     trace := f (trace s); timers := timers s; nextHandle := nextHandle s |}.

Definition with_timers (f : list Timer -> list Timer) (s : Sys) : Sys :=
  {| executor := executor s; monitor := monitor s; env := env s;
     trace := trace s; timers := f (timers s); nextHandle := nextHandle s |}.

Definition with_nextHandle (f : nat -> nat) (s : Sys) : Sys :=
  {| executor := executor s; monitor := monitor s; env := env s;
     trace := trace s; timers := timers s; nextHandle := f (nextHandle s) |}.

Definition with_lastCheck (t : option Z) (m : DatabaseMonitor) : DatabaseMonitor :=
  {| mon_apiClient := mon_apiClient m; isRunning := isRunning m;
     monitorInterval := monitorInterval m; lastCheck := t;
     processedCount := processedCount m |}.

Definition with_processedCount (f : nat -> nat) (m : DatabaseMonitor) : DatabaseMonitor :=
  {| mon_apiClient := mon_apiClient m; isRunning := isRunning m;
     monitorInterval := monitorInterval m; lastCheck := lastCheck m;
     processedCount := f (processedCount m) |}.

Definition with_files (f : gmap string string -> gmap string string) (e : Env) : Env :=
  {| files := f (files e); dirs := dirs e; now := now e;
     mkdir_fails := mkdir_fails e; rename_fails := rename_fails e;
     read_fails := read_fails e; put_fails := put_fails e; pending := pending e |}.

Definition with_dirs (f : gset string -> gset string) (e : Env) : Env :=
  {| files := files e; dirs := f (dirs e); now := now e;
     mkdir_fails := mkdir_fails e; rename_fails := rename_fails e;
     read_fails := read_fails e; put_fails := put_fails e; pending := pending e |}.

(** ** The monad of asynchronous methods

    A method runs on the system state and either returns, throws, or, for
    the one recursive method, exhausts the recursion budget of the model. *)

Inductive Outcome (A : Type) :=
  | Ok (a : A)
  | Throw (e : Error)
  | OutOfFuel.
Arguments Ok {A} a.
Arguments Throw {A} e.
Arguments OutOfFuel {A}.

Definition M (A : Type) : Type := Sys -> Outcome A * Sys.

Global Instance M_ret : MRet M := fun A a s => (Ok a, s).

Global Instance M_bind : MBind M := fun A B k m s =>
  match m s with
  | (Ok a, s') => k a s'
  | (Throw e, s') => (Throw e, s')
  | (OutOfFuel, s') => (OutOfFuel, s')
  end.

Definition gets {A} (f : Sys -> A) : M A := fun s => (Ok (f s), s).

Definition modify (f : Sys -> Sys) : M unit := fun s => (Ok tt, f s).

Definition throw {A} (e : Error) : M A := fun s => (Throw e, s).

Definition out_of_fuel {A} : M A := fun s => (OutOfFuel, s).

(** [try { m } catch (e) { h e }] *)
Definition try_catch {A} (m : M A) (h : Error -> M A) : M A := fun s =>
  match m s with
  | (Throw e, s') => h e s'
  | r => r
  end.

Definition emit (ev : Event) : M unit :=
  modify (with_trace (fun t => t ++ [ev])).

(** [for (const x of xs) { await body(x) }] *)
Fixpoint for_each {A} (xs : list A) (body : A -> M unit) : M unit :=
  match xs with
  | [] => mret tt
  | x :: xs' => body x;; for_each xs' body
  end.

(** ** The host: configuration, [path.join], and the world outside

    [path_join] is Node's [path.join]. [outside] is what the rest of the
    world (the external application that processes the XML files, the
    operator, the clock) does to the environment while the executor sleeps
    in [delay]. *)

Class Host := {
  config : Config;
  path_join : list string -> string;
  outside : Env -> Env
}.

(** ** Node primitives *)

(** [fs.access(path)]: rejects when the path does not exist. *)
Definition fs_access (path : string) : M unit :=
  e ← gets env;
  if bool_decide (is_Some (files e !! path)) then mret tt else throw (ENOENT path).

(** [fs.mkdir(dir, { recursive: true })] *)
Definition fs_mkdir (dir : string) : M unit :=
  emit (Mkdir dir);;
  e ← gets env;
  if mkdir_fails e dir then throw (FsFault dir)
  else modify (with_env (with_dirs (fun d => {[dir]} ∪ d))).

(** [fs.rename(src, dst)] *)
Definition fs_rename (src dst : string) : M unit :=
  emit (Renamed src dst);;
  e ← gets env;
  if rename_fails e src dst then throw (FsFault src)
  else match files e !! src with
       | None => throw (ENOENT src)
       | Some content =>
           modify (with_env (with_files (fun fs => <[dst := content]> (base.delete src fs))))
       end.

(** [fs.readFile(path, 'utf8')] *)
Definition fs_readFile (path : string) : M string :=
  e ← gets env;
  if read_fails e path then throw (FsFault path)
  else match files e !! path with
       | None => throw (ENOENT path)
       | Some content => mret content
       end.

(** [setInterval(callback, ms)]: the handle it returns is an object, hence
    truthy. *)
Definition setInterval (k : TimerKind) (ms : Z) : M nat :=
  h ← gets nextHandle;
  modify (with_timers (fun ts => ts ++ [{| handle := h; kind := k; period := ms |}]));;
  modify (with_nextHandle S);;
  mret h.

(** [clearInterval(handle)] *)
Definition clearInterval (h : nat) : M unit :=
  modify (with_timers (filter (fun t => handle t ≠ h))).

(** [String.prototype.includes] *)
Fixpoint includes (needle hay : string) : bool :=
  String.prefix needle hay ||
  match hay with
  | EmptyString => false
  | String _ hay' => includes needle hay'
  end.

(** ** database.js: the calls the executor and the scheduler make *)

(** [ApiClient.markAsProcessed(id)]: one PUT; rethrows when the response
    is not ok or the transport fails. *)
Definition markAsProcessed (client : ApiClient) (recordId : Z) : M unit :=
  emit (StorePut recordId);;
  e ← gets env;
  if put_fails e recordId then throw (HttpError recordId) else mret tt.

(** [ApiClient.getRecordsToProcess()] as its caller sees it: the records,
    or an exception. The requests the client makes on the way and its
    [isConnected] flag are the matter of [Database.getRecordsToProcess]
    below. *)
Definition getRecordsToProcess (client : ApiClient) : M (list CteRecord) :=
  e ← gets env;
  match pending e with
  | Some records => mret records
  | None => throw FetchError
  end.

(** ** tasks.js: the task executor *)

Module Tasks.

(** [new TaskExecutor()]: the two maps are created; no other field is
    assigned. *)
Definition new_TaskExecutor : TaskExecutor := {|
  runningTasks := ∅;
  processingFiles := [];
  processedFileInterval := None;
  retryCounters := None;
  apiClient := None
|}.

Definition is_digit (c : Ascii.ascii) : bool :=
  let n := Ascii.nat_of_ascii c in (48 <=? n)%nat && (n <=? 57)%nat.

Fixpoint all_digits (s : string) : bool :=
  match s with
  | EmptyString => true
  | String c s' => is_digit c && all_digits s'
  end.

(** [/^\d{14}$/.test(s)] *)
Definition is_14_digits (s : string) : bool :=
  (String.length s =? 14)%nat && all_digits s.

(** The chave de acesso has 44 characters; positions 6 to 19 hold the
    CNPJ. [null] is the source's "no CNPJ". *)
Definition extractCNPJFromChaveAcesso (chaveAcesso : string) : option string :=
  if String.eqb chaveAcesso "" || negb (String.length chaveAcesso =? 44)%nat
  then None
  else
    let cnpj := String.substring 6 14 chaveAcesso in
    if negb (is_14_digits cnpj) then None else Some cnpj.

Section Tasks.
Context `{Host}.

Definition setupDirectories : M unit :=
  try_catch
    (for_each [sourceFolder (xmlProcessing config);
               cnpjBasePath (xmlProcessing config)] fs_mkdir)
    (fun _ => mret tt).

Definition fileExists (filePath : string) : M bool :=
  try_catch (fs_access filePath;; mret true) (fun _ => mret false).

Definition delay (ms : Z) : M unit :=
  emit (Delayed ms);;
  modify (with_env outside).

Definition moveExistingXMLToCNPJFolder (record : CteRecord) (cnpj : string) : M string :=
  try_catch
    (let fileName := numero_cte record +:+ ".xml" in
     let sourcePath := path_join [sourceFolder (xmlProcessing config); fileName] in
     sourceExists ← fileExists sourcePath;
     if negb sourceExists then throw (XmlNotFound sourcePath)
     else
       let cnpjFolder := path_join [cnpjBasePath (xmlProcessing config); cnpj] in
       fs_mkdir cnpjFolder;;
       let processedFolder :=
         path_join [cnpjFolder; processedFolder (xmlProcessing config)] in
       fs_mkdir processedFolder;;
       let targetPath := path_join [cnpjFolder; fileName] in
       fs_rename sourcePath targetPath;;
       mret targetPath)
    (fun error => throw error).

Definition startProcessedFileMonitoring : M unit :=
  interval ← gets (fun s => processedFileInterval (executor s));
  match interval with
  | Some _ => mret tt
  | None =>
      h ← setInterval ScanTimer (checkProcessedInterval (xmlProcessing config));
      modify (with_executor (with_processedFileInterval (Some h)))
  end.

Definition waitForProcessedFile (record : CteRecord) (cnpj : string) : M unit :=
  let fileName := numero_cte record +:+ ".xml" in
  let processedPath :=
    path_join [cnpjBasePath (xmlProcessing config); cnpj;
               processedFolder (xmlProcessing config); fileName] in
  t ← gets (fun s => now (env s));
  modify (with_executor (with_processingFiles (JsMap.set (id record)
    {| fi_recordId := id record;
       numeroCtE := numero_cte record;
       cnpj := cnpj;
       processedPath := processedPath;
       startTime := t |})));;
  startProcessedFileMonitoring.

Definition handlePendingDocument (record : CteRecord) (cnpj : string) : M unit :=
  moveExistingXMLToCNPJFolder record cnpj;;
  waitForProcessedFile record cnpj.

Definition processRecord (record : CteRecord) : M unit :=
  match extractCNPJFromChaveAcesso (numero_cte record) with
  | None => throw (CnpjNotExtracted (numero_cte record))
  | Some cnpj =>
      if String.eqb (status record) "pendente"
      then handlePendingDocument record cnpj
      else mret tt
  end.

Definition executeSpecificTasks (record : CteRecord) : M unit := mret tt.

Definition checkIfAuthorized (filePath : string) : M bool :=
  try_catch
    (content ← fs_readFile filePath;
     mret (includes "<cStat>100</cStat>" content
           || includes "autorizado" content
           || includes "Autorizado" content))
    (fun _ => mret false).

Definition markCTEAsEmitted (recordId : Z) : M unit :=
  try_catch
    (client ← gets (fun s => apiClient (executor s));
     match client with
     | None => throw (TypeError "this.apiClient is undefined")
     | Some c => markAsProcessed c recordId
     end)
    (fun error => throw error).

(** The body of the loop of [checkProcessedFiles], with its [try]. *)
Definition checkProcessedFile (entry : Z * FileInfo) : M unit :=
  let '(recordId, fileInfo) := entry in
  try_catch
    (found ← fileExists (processedPath fileInfo);
     if found : bool then
       authorized ← checkIfAuthorized (processedPath fileInfo);
       if authorized : bool then
         markCTEAsEmitted recordId;;
         modify (with_executor (with_processingFiles (JsMap.delete recordId)))
       else mret tt
     else
       t ← gets (fun s => now (env s));
       let elapsed := (t - startTime fileInfo)%Z in
       if (processingTimeout (xmlProcessing config) <? elapsed)%Z
       then modify (with_executor (with_processingFiles (JsMap.delete recordId)))
       else mret tt)
    (fun _ => mret tt).

(** The loop runs over the entries the map holds when the scan starts: an
    iteration deletes no key but its own, so the live iteration of the
    [Map] visits exactly these. *)
Definition checkProcessedFiles : M unit :=
  entries ← gets (fun s => processingFiles (executor s));
  if decide (JsMap.size entries = 0) then mret tt
  else for_each entries checkProcessedFile.

Definition stopProcessedFileMonitoring : M unit :=
  interval ← gets (fun s => processedFileInterval (executor s));
  match interval with
  | Some h =>
      clearInterval h;;
      modify (with_executor (with_processedFileInterval None))
  | None => mret tt
  end.

Definition retryKey (record : CteRecord) : string :=
  "retry_" +:+ pretty (id record).

(** [executeTask] is the method itself: [handleTaskFailure] calls back
    into it. *)
Definition handleTaskFailure (executeTask : CteRecord -> M TaskResult)
    (record : CteRecord) (error : Error) : M TaskResult :=
  let maxRetries := retryAttempts (tasks config) in
  let retryKey := retryKey record in
  modify (with_executor (fun ex =>
    match retryCounters ex with
    | None => with_retryCounters (Some ∅) ex
    | Some _ => ex
    end));;
  counters ← gets (fun s => default ∅ (retryCounters (executor s)));
  let currentRetries := default 0%nat (counters !! retryKey) in
  if (currentRetries <? maxRetries)%nat then
    modify (with_executor (with_retryCounters
      (Some (<[retryKey := (currentRetries + 1)%nat]> counters))));;
    delay (retryDelay (tasks config));;
    executeTask record
  else
    modify (with_executor (with_retryCounters
      (Some (base.delete retryKey counters))));;
    mret {| success := false; recordId := id record; error := Some error |}.

Definition taskId (record : CteRecord) (t : Z) : string :=
  "task_" +:+ pretty (id record) +:+ "_" +:+ pretty t.

(** [fuel] bounds the depth of the recursion through
    [handleTaskFailure]. *)
Fixpoint executeTask (fuel : nat) (record : CteRecord) : M TaskResult :=
  match fuel with
  | O => out_of_fuel
  | S fuel' =>
      t ← gets (fun s => now (env s));
      let taskId := taskId record t in
      try_catch
        (emit (TaskStarted (id record));;
         modify (with_executor (with_runningTasks
           (<[taskId := {| rt_recordId := id record; rt_startTime := t |}]>)));;
         processRecord record;;
         executeSpecificTasks record;;
         modify (with_executor (with_runningTasks (base.delete taskId)));;
         mret {| success := true; recordId := id record; error := None |})
        (fun error =>
           modify (with_executor (with_runningTasks (base.delete taskId)));;
           handleTaskFailure (executeTask fuel') record error)
  end.

Definition cleanup : M unit :=
  stopProcessedFileMonitoring;;
  modify (with_executor (with_processingFiles (fun _ => [])));;
  modify (with_executor (with_runningTasks (fun _ => ∅))).

End Tasks.
End Tasks.

(** ** monitor.js: the scheduler *)

Module Monitor.
Section Monitor.
Context `{Host}.

Definition processRecord (fuel : nat) (record : CteRecord) : M unit :=
  try_catch
    (emit (RecordPicked (id record));;
     result ← Tasks.executeTask fuel record;
     if success result then
       client ← gets (fun s => mon_apiClient (monitor s));
       markAsProcessed client (id record);;
       modify (with_monitor (with_processedCount S))
     else mret tt)
    (fun _ => mret tt).

Definition checkDatabase (fuel : nat) : M unit :=
  try_catch
    (t ← gets (fun s => now (env s));
     modify (with_monitor (with_lastCheck (Some t)));;
     client ← gets (fun s => mon_apiClient (monitor s));
     records ← getRecordsToProcess client;
     if (0 <? List.length records)%nat
     then for_each records (processRecord fuel)
     else mret tt)
    (fun _ => mret tt).

End Monitor.
End Monitor.

(** ** Observations

    What the statements below say about a run: verdicts of the scan,
    projections of the trace, the pure form of single steps. *)

(** The three markers [checkIfAuthorized] looks for. *)
Definition has_marker (content : string) : bool :=
  includes "<cStat>100</cStat>" content
  || includes "autorizado" content
  || includes "Autorizado" content.

(** What [checkIfAuthorized] answers on a path in an environment. *)
Definition authorized_in (e : Env) (path : string) : bool :=
  if read_fails e path then false
  else match files e !! path with
       | Some content => has_marker content
       | None => false
       end.

(** What one pass of the scan does with an entry. *)
Inductive Verdict :=
  | Emitted        (* authorized, the store accepted the mark *)
  | StoreFailed    (* authorized, the store call failed *)
  | NoClient       (* authorized, the executor has no client *)
  | NotAuthorized  (* processed file present, not authorized *)
  | Dropped        (* processed file absent, timeout passed *)
  | Waiting.       (* processed file absent, still in time *)

Definition asks_store (v : Verdict) : bool :=
  match v with Emitted | StoreFailed => true | _ => false end.

Definition removes (v : Verdict) : bool :=
  match v with Emitted | Dropped => true | _ => false end.

Definition settle (v : Verdict) (rid : Z) (s : Sys) : Sys :=
  let s1 := if asks_store v then with_trace (fun t => t ++ [StorePut rid]) s else s in
  if removes v
  then with_executor (with_processingFiles (JsMap.delete rid)) s1
  else s1.

(** How often a trace asks the store to mark a record. *)
Definition puts_for (rid : Z) (tr : list Event) : nat :=
  List.length (filter (fun ev => ev = StorePut rid) tr).

Definition fs_event (ev : Event) : Prop :=
  match ev with Mkdir _ | Renamed _ _ => True | _ => False end.

Definition executor_event (ev : Event) : Prop :=
  match ev with RecordPicked _ | StorePut _ => False | _ => True end.

Definition scheduling (ev : Event) : bool :=
  match ev with TaskStarted _ | Delayed _ => true | _ => false end.

(** The attempts and the waits of a trace. *)
Definition schedule (tr : list Event) : list Event := List.filter scheduling tr.

(** The number of attempts of a trace. *)
Definition attempts (tr : list Event) : nat :=
  List.length
    (List.filter (fun ev => match ev with TaskStarted _ => true | _ => false end) tr).

(** The records the scheduler picked, in order. *)
Definition picks (tr : list Event) : list Z :=
  omap (fun ev => match ev with RecordPicked i => Some i | _ => None end) tr.

(** A chave de acesso the executor rejects. *)
Definition malformed (chaveAcesso : string) : Prop :=
  String.length chaveAcesso ≠ 44%nat \/
  Tasks.all_digits (String.substring 6 14 chaveAcesso) = false.

(** [retryCounters.get(retryKey) || 0] *)
Definition retry_count (r : CteRecord) (s : Sys) : nat :=
  default 0%nat (default ∅ (retryCounters (executor s)) !! Tasks.retryKey r).

(** The steps of [executeTask] and [handleTaskFailure] as state changes. *)
Definition begin_task (r : CteRecord) (s : Sys) : Sys :=
  with_executor (with_runningTasks
    (<[Tasks.taskId r (now (env s)) :=
         {| rt_recordId := id r; rt_startTime := now (env s) |}]>))
    (with_trace (fun t => t ++ [TaskStarted (id r)]) s).

Definition end_task (r : CteRecord) (t : Z) (s : Sys) : Sys :=
  with_executor (with_runningTasks (base.delete (Tasks.taskId r t))) s.

Definition bump (r : CteRecord) (s : Sys) : Sys :=
  with_executor (with_retryCounters
    (Some (<[Tasks.retryKey r := (retry_count r s + 1)%nat]>
             (default ∅ (retryCounters (executor s)))))) s.

Definition forget (r : CteRecord) (s : Sys) : Sys :=
  with_executor (with_retryCounters
    (Some (base.delete (Tasks.retryKey r) (default ∅ (retryCounters (executor s)))))) s.

(** The steps of the scheduler's [processRecord] as state changes. *)
Definition picked (r : CteRecord) (s : Sys) : Sys :=
  with_trace (fun t => t ++ [RecordPicked (id r)]) s.

Definition marked (r : CteRecord) (s : Sys) : Sys :=
  with_trace (fun t => t ++ [StorePut (id r)]) s.

Definition counted (s : Sys) : Sys := with_monitor (with_processedCount S) s.

Definition stamped (s : Sys) : Sys :=
  with_monitor (with_lastCheck (Some (now (env s)))) s.

(** The timers that run the scan. *)
Definition scan_timers (s : Sys) : list Timer :=
  filter (fun t => kind t = ScanTimer) (timers s).

(** The registry holds one entry per key. *)
Definition registry_wf (s : Sys) : Prop :=
  JsMap.wf (processingFiles (executor s)).

(** A method keeps a property of the state, however it ends. *)
Definition preserves (P : Sys -> Prop) {A} (m : M A) : Prop :=
  forall s, P s -> P (m s).2.

(** The methods a caller can invoke on the executor and the scheduler. *)
Inductive Call :=
  | CallSetupDirectories
  | CallExecuteTask (fuel : nat) (record : CteRecord)
  | CallCheckProcessedFiles
  | CallStartProcessedFileMonitoring
  | CallStopProcessedFileMonitoring
  | CallCleanup
  | CallCheckDatabase (fuel : nat).

Section Observations.
Context `{Host}.

Definition verdict (s : Sys) (entry : Z * FileInfo) : Verdict :=
  let e := env s in
  if bool_decide (is_Some (files e !! processedPath entry.2)) then
    if authorized_in e (processedPath entry.2) then
      match apiClient (executor s) with
      | None => NoClient
      | Some _ => if put_fails e entry.1 then StoreFailed else Emitted
      end
    else NotAuthorized
  else if (processingTimeout (xmlProcessing config) <? now e - startTime entry.2)%Z
       then Dropped else Waiting.

Definition scan_step (s : Sys) (entry : Z * FileInfo) : Sys :=
  settle (verdict s entry) entry.1 s.

Definition store_calls (s : Sys) (l : list (Z * FileInfo)) : list Event :=
  flat_map (fun entry =>
    if asks_store (verdict s entry) then [StorePut entry.1] else []) l.

Definition sleep (ms : Z) (s : Sys) : Sys :=
  with_env outside (with_trace (fun t => t ++ [Delayed ms]) s).

(** The pattern of a run in which every attempt fails: the first attempt,
    then [n] times a wait and a new attempt. *)
Definition failing_schedule (r : CteRecord) (n : nat) : list Event :=
  TaskStarted (id r) ::
  concat (replicate n [Delayed (retryDelay (tasks config)); TaskStarted (id r)]).

Definition process_step (fuel : nat) (s : Sys) (r : CteRecord) : Sys :=
  (Monitor.processRecord fuel r s).2.

Definition started (s : Sys) : Sys :=
  with_executor (with_processedFileInterval (Some (nextHandle s)))
    (with_nextHandle S
       (with_timers (fun ts => ts ++
          [{| handle := nextHandle s; kind := ScanTimer;
              period := checkProcessedInterval (xmlProcessing config) |}]) s)).

(** The entry [waitForProcessedFile] registers. *)
Definition watch_entry (r : CteRecord) (cnpj : string) (t : Z) : FileInfo :=
  {| fi_recordId := id r;
     numeroCtE := numero_cte r;
     cnpj := cnpj;
     processedPath :=
       path_join [cnpjBasePath (xmlProcessing config); cnpj;
                  processedFolder (xmlProcessing config); numero_cte r +:+ ".xml"];
     startTime := t |}.

Definition registered (r : CteRecord) (cnpj : string) (s : Sys) : Sys :=
  with_executor (with_processingFiles
    (JsMap.set (id r) (watch_entry r cnpj (now (env s))))) s.

Definition run (c : Call) : M unit :=
  match c with
  | CallSetupDirectories => Tasks.setupDirectories
  | CallExecuteTask fuel record => Tasks.executeTask fuel record;; mret tt
  | CallCheckProcessedFiles => Tasks.checkProcessedFiles
  | CallStartProcessedFileMonitoring => Tasks.startProcessedFileMonitoring
  | CallStopProcessedFileMonitoring => Tasks.stopProcessedFileMonitoring
  | CallCleanup => Tasks.cleanup
  | CallCheckDatabase fuel => Monitor.checkDatabase fuel
  end.

(** The states of a system whose executor was built by the constructor:
    methods run, and between them the world changes. *)
Inductive reachable : Sys -> Prop :=
  | reach_new s :
      executor s = Tasks.new_TaskExecutor -> reachable s
  | reach_call c s :
      reachable s -> reachable (run c s).2
  | reach_world f s :
      reachable s -> reachable (with_env f s).
End Observations.

(** ** Concrete inputs

    A host with the values of config.js, a POSIX [path.join] without
    normalisation, and the systems the examples run on. *)
Definition posix_join (segments : list string) : string := String.concat "/" segments.

Definition idle_host : Host :=
  {| config := default_config; path_join := posix_join; outside := fun e => e |}.

Definition example_key : string := "35250612345678000199570010000001231000001234".
Definition second_key : string := "35250698765432000155570010000004561000004567".
Definition third_key : string := "35250611222333000181570010000007891000007890".

Definition example_record : CteRecord :=
  {| id := 7; numero_cte := example_key; status := "pendente" |}.

Definition malformed_record : CteRecord :=
  {| id := 8; numero_cte := "123"; status := "pendente" |}.

Definition source_of (key : string) : string :=
  posix_join ["./xml/gerados"; key +:+ ".xml"].

Definition arriving_host : Host :=
  {| config := default_config; path_join := posix_join;
     outside := with_files (fun fs => <[source_of example_key := "<CTe/>"]> fs) |}.

Definition quiet_env : Env :=
  {| files := ∅; dirs := ∅; now := 1000;
     mkdir_fails := fun _ => false; rename_fails := fun _ _ => false;
     read_fails := fun _ => false; put_fails := fun _ => false;
     pending := Some [] |}.

Definition example_client : ApiClient :=
  {| baseUrl := "https://sistema.systemtruck.com.br/api" |}.

Definition example_monitor : DatabaseMonitor :=
  {| mon_apiClient := example_client; isRunning := true;
     monitorInterval := None; lastCheck := None; processedCount := 0 |}.

Definition system_of (ex : TaskExecutor) (e : Env) : Sys :=
  {| executor := ex; monitor := example_monitor; env := e;
     trace := []; timers := []; nextHandle := 0 |}.

Definition fresh_system : Sys := system_of Tasks.new_TaskExecutor quiet_env.

Definition example_entry : FileInfo :=
  @watch_entry idle_host example_record "12345678000199" 1000.

Definition watching (client : option ApiClient) : TaskExecutor :=
  {| runningTasks := ∅;
     processingFiles := [(7%Z, example_entry)];
     processedFileInterval := Some 0;
     retryCounters := None;
     apiClient := client |}.

Definition processed_env (store_down read_down : bool) (t : Z) : Env :=
  {| files := {[processedPath example_entry := "<cStat>100</cStat>"]}; dirs := ∅;
     now := t;
     mkdir_fails := fun _ => false; rename_fails := fun _ _ => false;
     read_fails := fun _ => read_down; put_fails := fun _ => store_down;
     pending := Some [] |}.

Definition late_env : Env :=
  {| files := ∅; dirs := ∅; now := 601001;
     mkdir_fails := fun _ => false; rename_fails := fun _ _ => false;
     read_fails := fun _ => false; put_fails := fun _ => false;
     pending := Some [] |}.

Definition batch : list CteRecord :=
  [ {| id := 1; numero_cte := example_key; status := "pendente" |};
    {| id := 2; numero_cte := second_key; status := "pendente" |};
    {| id := 3; numero_cte := third_key; status := "pendente" |} ].

Definition batch_env : Env :=
  {| files := {[source_of example_key := "<CTe/>"; source_of third_key := "<CTe/>"]};
     dirs := ∅; now := 1000;
     mkdir_fails := fun _ => false; rename_fails := fun _ _ => false;
     read_fails := fun _ => false; put_fails := fun _ => false;
     pending := Some batch |}.

(** ** tasks.js: the view of the registry *)

Module TaskViews.

(** An element of [stats.files]. *)
Record WaitingFile := {
  wf_recordId : Z;
  wf_numeroCtE : string;
  wf_cnpj : string;
  waitingTime : Z
}.

(** The object [getProcessingStats] returns. *)
Record ProcessingStats := {
  filesWaiting : nat;
  stats_files : list WaitingFile
}.

Definition getProcessingStats : M ProcessingStats :=
  registry ← gets (fun s => processingFiles (executor s));
  t ← gets (fun s => now (env s));
  mret {| filesWaiting := JsMap.size registry;
          stats_files :=
            map (fun entry : Z * FileInfo =>
                   {| wf_recordId := entry.1;
                      wf_numeroCtE := numeroCtE entry.2;
                      wf_cnpj := cnpj entry.2;
                      waitingTime := (t - startTime entry.2)%Z |}) registry |}.

End TaskViews.

(** ** monitor.js: starting and stopping the scheduler *)

Definition with_isRunning (b : bool) (m : DatabaseMonitor) : DatabaseMonitor :=
  {| mon_apiClient := mon_apiClient m; isRunning := b;
     monitorInterval := monitorInterval m; lastCheck := lastCheck m;
     processedCount := processedCount m |}.

Definition with_monitorInterval (h : option nat) (m : DatabaseMonitor) : DatabaseMonitor :=
  {| mon_apiClient := mon_apiClient m; isRunning := isRunning m;
     monitorInterval := h; lastCheck := lastCheck m;
     processedCount := processedCount m |}.

Module MonitorControl.
Section MonitorControl.
Context `{Host}.

(** [start()]. The first check is called without [await]; nothing but a log
    line follows the call, so the check is run here to its end. *)
Definition start (fuel : nat) : M unit :=
  running ← gets (fun s => isRunning (monitor s));
  if running : bool then mret tt
  else
    modify (with_monitor (with_isRunning true));;
    t ← gets (fun s => now (env s));
    modify (with_monitor (with_lastCheck (Some t)));;
    h ← setInterval MonitorTimer (checkInterval (api config));
    modify (with_monitor (with_monitorInterval (Some h)));;
    Monitor.checkDatabase fuel.

Definition stop : M unit :=
  running ← gets (fun s => isRunning (monitor s));
  if negb running then mret tt
  else
    modify (with_monitor (with_isRunning false));;
    interval ← gets (fun s => monitorInterval (monitor s));
    match interval with
    | Some h =>
        clearInterval h;;
        modify (with_monitor (with_monitorInterval None))
    | None => mret tt
    end.

Definition updateInterval (newInterval : Z) : M unit :=
  running ← gets (fun s => isRunning (monitor s));
  if running : bool then
    interval ← gets (fun s => monitorInterval (monitor s));
    match interval with
    | Some h => clearInterval h
    | None => mret tt
    end;;
    h ← setInterval MonitorTimer newInterval;
    modify (with_monitor (with_monitorInterval (Some h)))
  else mret tt.

End MonitorControl.
End MonitorControl.

(** ** server.js: the route that changes the check interval

    The route assigns [config.api.checkInterval]; the configuration is part
    of the host, so the route returns the host the later calls run in. *)

Module Web.

Definition set_checkInterval (h : Host) (ms : Z) : Host :=
  {| config := {| api := {| checkInterval := ms |};
                  tasks := tasks (@config h);
                  xmlProcessing := xmlProcessing (@config h) |};
     path_join := @path_join h;
     outside := @outside h |}.

(** [POST /api/config/interval] with body [{ interval }]; [None] is a body
    without the field. The result is the HTTP status, the host after the
    request and the state after it. *)
Definition post_config_interval (h : Host) (interval : option Z) (s : Sys)
    : nat * Host * Sys :=
  match interval with
  | Some i =>
      if negb (i =? 0)%Z && (10000 <=? i)%Z && (i <=? 3600000)%Z then
        let h' := set_checkInterval h i in
        (200%nat, h', (MonitorControl.updateInterval i s).2)
      else (400%nat, h, s)
  | None => (400%nat, h, s)
  end.

End Web.

(** ** database.js: the client, request by request *)

Module Database.

Inductive Request :=
  | GetStats
  | PostSetup
  | GetPendentes
  | PutStatus (url : string).

(** What [fetch] and [response.json()] give: the transport fails, the
    status is not ok, or the status is ok and the body parses or not. *)
Inductive Reply (A : Type) :=
  | NetworkError
  | NotOk (status : nat)
  | OkBody (body : option A).
Arguments NetworkError {A}.
Arguments NotOk {A} status.
Arguments OkBody {A} body.

(** The server behind the API. *)
Record Remote := {
  stats_reply : Reply unit;
  setup_reply : Reply unit;
  pendentes_reply : Reply (list CteRecord);
  put_reply : Z -> Reply bool
}.

(** The fields of the [ApiClient] object, and the requests it sent. *)
Record ApiState := {
  isConnected : bool;
  sent : list Request
}.

(** The object [testConnection] returns. *)
Inductive TestResult :=
  | TestOk
  | TestNotOk (status : nat)
  | TestError.

Inductive DbError :=
  | ConnectFailed (result : TestResult)
  | HttpStatus (status : nat)
  | TransportError
  | JsonError.

Inductive DbOutcome (A : Type) :=
  | DbOk (a : A)
  | DbThrow (e : DbError).
Arguments DbOk {A} a.
Arguments DbThrow {A} e.

Definition send (req : Request) (st : ApiState) : ApiState :=
  {| isConnected := isConnected st; sent := sent st ++ [req] |}.

Definition set_connected (b : bool) (st : ApiState) : ApiState :=
  {| isConnected := b; sent := sent st |}.

(** The endpoint templates of config.js. *)
Definition endpoint_updateStatus : string := "/cte-documentos/{id}/status".

(** [String.prototype.replace(pattern, replacement)] with a string pattern:
    the first occurrence only. *)
Fixpoint replace (pattern replacement s : string) : string :=
  if String.prefix pattern s
  then replacement +:+
       String.substring (String.length pattern)
         (String.length s - String.length pattern) s
  else match s with
       | EmptyString => EmptyString
       | String c s' => String c (replace pattern replacement s')
       end.

Definition testConnection (remote : Remote) (st : ApiState) : TestResult * ApiState :=
  let st1 := send GetStats st in
  match stats_reply remote with
  | NetworkError => (TestError, st1)
  | NotOk status => (TestNotOk status, st1)
  | OkBody None => (TestError, st1)
  | OkBody (Some _) => (TestOk, st1)
  end.

(** Every failure of [setupTable] is caught and logged. *)
Definition setupTable (remote : Remote) (st : ApiState) : ApiState :=
  send PostSetup st.

Definition connect (remote : Remote) (st : ApiState) : DbOutcome bool * ApiState :=
  let '(testResult, st1) := testConnection remote st in
  match testResult with
  | TestOk =>
      let st2 := set_connected true st1 in
      (DbOk true, setupTable remote st2)
  | _ => (DbThrow (ConnectFailed testResult), set_connected false st1)
  end.

Definition getRecordsToProcess (remote : Remote) (st : ApiState)
    : DbOutcome (list CteRecord) * ApiState :=
  let '(connected, st1) :=
    if isConnected st then (DbOk true, st) else connect remote st in
  match connected with
  | DbThrow e => (DbThrow e, st1)
  | DbOk _ =>
      let st2 := send GetPendentes st1 in
      match pendentes_reply remote with
      | NetworkError => (DbThrow TransportError, st2)
      | NotOk status => (DbThrow (HttpStatus status), st2)
      | OkBody None => (DbThrow JsonError, st2)
      | OkBody (Some records) => (DbOk records, st2)
      end
  end.

Definition markAsProcessed (baseUrl : string) (remote : Remote) (recordId : Z)
    (st : ApiState) : DbOutcome bool * ApiState :=
  let url := baseUrl +:+ replace "{id}" (pretty recordId) endpoint_updateStatus in
  let st1 := send (PutStatus url) st in
  match put_reply remote recordId with
  | NetworkError => (DbThrow TransportError, st1)
  | NotOk status => (DbThrow (HttpStatus status), st1)
  | OkBody None => (DbThrow JsonError, st1)
  | OkBody (Some success) => (DbOk success, st1)
  end.

Definition close (st : ApiState) : ApiState := set_connected false st.

End Database.

(** ** Further observations *)

(** The number of waits of a trace. *)
Definition delays (tr : list Event) : nat :=
  List.length
    (List.filter (fun ev => match ev with Delayed _ => true | _ => false end) tr).

(** The timers that run the scheduler's check. *)
Definition monitor_timers (s : Sys) : list Timer :=
  filter (fun t => kind t = MonitorTimer) (timers s).

(** A handle is issued once: the timers have distinct handles, all below
    the next one. *)
Definition timers_fresh (s : Sys) : Prop :=
  NoDup (map handle (timers s)) /\
  Forall (fun t => (handle t < nextHandle s)%nat) (timers s).

(** The executor holds no record store client. *)
Definition unwired (s : Sys) : Prop := apiClient (executor s) = None.

(** What a tick may do to the timers of a state [s0] and must leave of its
    scheduler: it arms scan timers with new handles and nothing else. *)
Definition tick_frame (s0 s : Sys) : Prop :=
  exists extra,
    timers s = timers s0 ++ extra /\
    NoDup (map handle extra) /\
    Forall (fun t => kind t = ScanTimer /\
                     (nextHandle s0 <= handle t < nextHandle s)%nat) extra /\
    (nextHandle s0 <= nextHandle s)%nat /\
    isRunning (monitor s) = isRunning (monitor s0) /\
    monitorInterval (monitor s) = monitorInterval (monitor s0).

(** [s1 ⊑ s2]: the substring relation of [String.prototype.includes]. *)
Definition occurs_in (needle hay : string) : Prop :=
  exists pre post, hay = pre +:+ needle +:+ post.

Section MoreObservations.
Context `{Host}.

(** The state in which [start] runs its first check. *)
Definition armed (s : Sys) : Sys :=
  with_monitor (with_monitorInterval (Some (nextHandle s)))
    (with_nextHandle S
       (with_timers (fun ts => ts ++
          [{| handle := nextHandle s; kind := MonitorTimer;
              period := checkInterval (api config) |}])
          (with_monitor (with_lastCheck (Some (now (env s))))
             (with_monitor (with_isRunning true) s)))).
End MoreObservations.

(** ** Further concrete inputs *)

Definition cancelled_record : CteRecord :=
  {| id := 9; numero_cte := example_key; status := "cancelado" |}.

(** No file at all, at time [t]. *)
Definition empty_env_at (t : Z) : Env :=
  {| files := ∅; dirs := ∅; now := t;
     mkdir_fails := fun _ => false; rename_fails := fun _ _ => false;
     read_fails := fun _ => false; put_fails := fun _ => false;
     pending := Some [] |}.

(** The processed file of the example entry says the document was
    rejected; the time is long past the timeout. *)
Definition rejected_env : Env :=
  {| files := {[processedPath example_entry := "<cStat>204</cStat>"]}; dirs := ∅;
     now := 100000000;
     mkdir_fails := fun _ => false; rename_fails := fun _ _ => false;
     read_fails := fun _ => false; put_fails := fun _ => false;
     pending := Some [] |}.

Definition stopped_system (e : Env) : Sys :=
  with_monitor (with_isRunning false) (system_of Tasks.new_TaskExecutor e).

(** A running scheduler with its timer under handle 0. *)
Definition running_system : Sys :=
  {| executor := Tasks.new_TaskExecutor;
     monitor := {| mon_apiClient := example_client; isRunning := true;
                   monitorInterval := Some 0%nat; lastCheck := Some 1000%Z;
                   processedCount := 0 |};
     env := quiet_env; trace := [];
     timers := [{| handle := 0; kind := MonitorTimer; period := 60000 |}];
     nextHandle := 1 |}.


(** The XML file of record 7 waits in the source folder. *)
Definition ready_env : Env :=
  {| files := {[source_of example_key := "<CTe/>"]}; dirs := ∅; now := 1000;
     mkdir_fails := fun _ => false; rename_fails := fun _ _ => false;
     read_fails := fun _ => false; put_fails := fun _ => false;
     pending := Some [] |}.

(** The external application writes the authorized result of record 7. *)
Definition authorize (e : Env) : Env :=
  with_files (fun fs => <[processedPath example_entry := "<cStat>100</cStat>"]> fs) e.

(** Record 7 relocated by [executeTask] on the executor the constructor
    built, and then authorized by the external application. *)
Definition authorized_system : Sys :=
  with_env authorize
    (@run idle_host (CallExecuteTask 1 example_record)
       (system_of Tasks.new_TaskExecutor ready_env)).2.



(** * Lemmas *)

(** ** The map *)

Section JsMapFacts.
Context {K V : Type} `{EqDecision K}.
Implicit Types (m : list (K * V)) (k : K) (v : V).

Lemma get_delete_eq k m : JsMap.get k (JsMap.delete k m) = None.
Proof.
  induction m as [|[k' v'] m IH]; simpl; [done|].
  destruct (decide (k' = k)) as [->|Hne]; simpl; [done|].
  by rewrite decide_False.
Qed.

Lemma get_delete_ne k k' m :
  k ≠ k' -> JsMap.get k (JsMap.delete k' m) = JsMap.get k m.
Proof.
  intros Hne. induction m as [|[k0 v0] m IH]; simpl; [done|].
  destruct (decide (k0 = k')) as [->|Hne0]; simpl.
  - rewrite decide_False by congruence. done.
  - destruct (decide (k0 = k)); [done|]. exact IH.
Qed.

Lemma get_set_eq k v m : JsMap.get k (JsMap.set k v m) = Some v.
Proof.
  induction m as [|[k' v'] m IH]; simpl.
  - by rewrite decide_True.
  - destruct (decide (k' = k)) as [->|Hne]; simpl.
    + by rewrite decide_True.
    + by rewrite decide_False.
Qed.

Lemma get_set_ne k k' v m :
  k ≠ k' -> JsMap.get k (JsMap.set k' v m) = JsMap.get k m.
Proof.
  intros Hne. induction m as [|[k0 v0] m IH]; simpl.
  - rewrite decide_False by congruence. done.
  - destruct (decide (k0 = k')) as [->|Hne0]; simpl.
    + rewrite !decide_False by congruence. done.
    + destruct (decide (k0 = k)); [done|]. exact IH.
Qed.

Lemma keys_set_present k v m :
  k ∈ JsMap.keys m -> JsMap.keys (JsMap.set k v m) = JsMap.keys m.
Proof.
  unfold JsMap.keys.
  induction m as [|[k' v'] m IH]; simpl; intros Hin.
  - by apply elem_of_nil in Hin.
  - destruct (decide (k' = k)) as [->|Hne]; simpl; [done|].
    f_equal. apply IH. apply elem_of_cons in Hin as [->|Hin]; [done|exact Hin].
Qed.

Lemma keys_set_absent k v m :
  k ∉ JsMap.keys m -> JsMap.keys (JsMap.set k v m) = JsMap.keys m ++ [k].
Proof.
  unfold JsMap.keys.
  induction m as [|[k' v'] m IH]; simpl; intros Hin; [done|].
  apply not_elem_of_cons in Hin as [Hne Hin].
  rewrite decide_False by congruence. simpl. f_equal. by apply IH.
Qed.

Lemma wf_set k v m : JsMap.wf m -> JsMap.wf (JsMap.set k v m).
Proof.
  unfold JsMap.wf. intros Hwf.
  destruct (decide (k ∈ JsMap.keys m)) as [Hin|Hnin].
  - by rewrite keys_set_present.
  - rewrite keys_set_absent by done.
    apply NoDup_app. split_and!; [done| |apply NoDup_singleton].
    intros x Hx Hx'. apply list_elem_of_singleton in Hx'. by subst.
Qed.

Lemma keys_delete_subseteq k m : JsMap.keys (JsMap.delete k m) `sublist_of` JsMap.keys m.
Proof.
  unfold JsMap.keys.
  induction m as [|[k' v'] m IH]; simpl; [done|].
  destruct (decide (k' = k)); simpl.
  - by apply sublist_cons.
  - by apply sublist_skip.
Qed.

Lemma wf_delete k m : JsMap.wf m -> JsMap.wf (JsMap.delete k m).
Proof. unfold JsMap.wf. intros Hwf. eapply sublist_NoDup; [exact Hwf|apply keys_delete_subseteq]. Qed.

Lemma get_Some_elem_of k v m : JsMap.get k m = Some v -> (k, v) ∈ m.
Proof.
  induction m as [|[k' v'] m IH]; simpl; [done|].
  destruct (decide (k' = k)) as [->|Hne].
  - intros [= ->]. apply elem_of_cons. by left.
  - intros Hg. apply elem_of_cons. right. by apply IH.
Qed.

Lemma get_None_keys k m : JsMap.get k m = None <-> k ∉ JsMap.keys m.
Proof.
  unfold JsMap.keys.
  induction m as [|[k' v'] m IH]; simpl.
  - split; [intros _; apply not_elem_of_nil|done].
  - destruct (decide (k' = k)) as [->|Hne].
    + split; [done|]. intros Hn. exfalso. apply Hn. apply elem_of_cons. by left.
    + rewrite IH, not_elem_of_cons.
      split; [intros Hn; split; [congruence|exact Hn]|intros [_ Hn]; exact Hn].
Qed.
End JsMapFacts.

(** Unfold the monad to the state function it is. *)
Ltac run_m :=
  unfold mbind, M_bind, mret, M_ret, gets, modify, throw, emit, try_catch in *;
  simpl in *.

(** ** The scan of the registry *)

Section Scan.
Context `{Host}.

Lemma fileExists_eq p s :
  Tasks.fileExists p s = (Ok (bool_decide (is_Some (files (env s) !! p))), s).
Proof.
  unfold Tasks.fileExists, fs_access. run_m.
  destruct (bool_decide (is_Some (files (env s) !! p))); reflexivity.
Qed.

Lemma checkIfAuthorized_eq p s :
  Tasks.checkIfAuthorized p s =
  (Ok (if read_fails (env s) p then false
       else match files (env s) !! p with
            | Some content => has_marker content
            | None => false
            end), s).
Proof.
  unfold Tasks.checkIfAuthorized, fs_readFile. run_m.
  destruct (read_fails (env s) p); [reflexivity|].
  destruct (files (env s) !! p); reflexivity.
Qed.

Lemma markCTEAsEmitted_eq rid s :
  Tasks.markCTEAsEmitted rid s =
  match apiClient (executor s) with
  | None => (Throw (TypeError "this.apiClient is undefined"), s)
  | Some _ =>
      (if put_fails (env s) rid then Throw (HttpError rid) else Ok tt,
       with_trace (fun t => t ++ [StorePut rid]) s)
  end.
Proof.
  unfold Tasks.markCTEAsEmitted, markAsProcessed. run_m.
  destruct (apiClient (executor s)); [|reflexivity].
  destruct (put_fails (env s) rid); reflexivity.
Qed.

Lemma checkProcessedFile_eq entry s :
  Tasks.checkProcessedFile entry s = (Ok tt, scan_step s entry).
Proof.
  destruct entry as [rid fi].
  unfold Tasks.checkProcessedFile, try_catch, mbind, M_bind.
  rewrite fileExists_eq.
  unfold scan_step, verdict, settle; simpl.
  destruct (bool_decide (is_Some (files (env s) !! processedPath fi))).
  - rewrite checkIfAuthorized_eq. fold (authorized_in (env s) (processedPath fi)).
    destruct (authorized_in (env s) (processedPath fi)); [|reflexivity].
    rewrite markCTEAsEmitted_eq.
    destruct (apiClient (executor s)); [|reflexivity].
    destruct (put_fails (env s) rid); reflexivity.
  - run_m.
    destruct (processingTimeout (xmlProcessing config) <? now (env s) - startTime fi)%Z;
      reflexivity.
Qed.

Lemma for_each_scan l s :
  for_each l Tasks.checkProcessedFile s = (Ok tt, foldl scan_step s l).
Proof.
  revert s. induction l as [|entry l IH]; intros s; simpl; [reflexivity|].
  unfold mbind, M_bind. rewrite checkProcessedFile_eq. apply IH.
Qed.

Lemma checkProcessedFiles_eq s :
  Tasks.checkProcessedFiles s =
  (Ok tt, foldl scan_step s (processingFiles (executor s))).
Proof.
  unfold Tasks.checkProcessedFiles, mbind, M_bind, gets.
  destruct (decide (JsMap.size (processingFiles (executor s)) = 0)) as [Hz|Hnz].
  - destruct (processingFiles (executor s)); [reflexivity|discriminate Hz].
  - apply for_each_scan.
Qed.

(** The verdict reads the environment and the client reference only, and
    a scan step changes neither. *)
Lemma verdict_ext s s' entry :
  env s' = env s -> apiClient (executor s') = apiClient (executor s) ->
  verdict s' entry = verdict s entry.
Proof. intros He Hc. unfold verdict. by rewrite He, Hc. Qed.

Lemma settle_env v rid s : env (settle v rid s) = env s.
Proof. unfold settle. destruct (asks_store v), (removes v); reflexivity. Qed.

Lemma settle_apiClient v rid s :
  apiClient (executor (settle v rid s)) = apiClient (executor s).
Proof. unfold settle. destruct (asks_store v), (removes v); reflexivity. Qed.

Lemma settle_trace v rid s :
  trace (settle v rid s) = trace s ++ (if asks_store v then [StorePut rid] else []).
Proof.
  unfold settle. destruct (asks_store v), (removes v); simpl;
    by rewrite ?app_nil_r.
Qed.

Lemma settle_registry v rid s :
  processingFiles (executor (settle v rid s)) =
  if removes v then JsMap.delete rid (processingFiles (executor s))
  else processingFiles (executor s).
Proof. unfold settle. destruct (asks_store v), (removes v); reflexivity. Qed.

Lemma scan_fold_frame l s :
  let s' := foldl scan_step s l in
  env s' = env s /\
  apiClient (executor s') = apiClient (executor s) /\
  trace s' = trace s ++ store_calls s l.
Proof.
  revert s. induction l as [|entry l IH]; intros s; simpl.
  - by rewrite app_nil_r.
  - destruct (IH (scan_step s entry)) as (He & Hc & Ht).
    unfold scan_step in *.
    rewrite settle_env in He. rewrite settle_apiClient in Hc.
    rewrite settle_trace in Ht.
    split_and!; [done|done|].
    rewrite Ht, <- app_assoc. f_equal. f_equal.
    unfold store_calls. apply flat_map_ext. intros entry'.
    rewrite (verdict_ext s (settle (verdict s entry) entry.1 s) entry');
      [done|apply settle_env|apply settle_apiClient].
Qed.

Lemma scan_fold_get_other l s rid :
  rid ∉ JsMap.keys l ->
  JsMap.get rid (processingFiles (executor (foldl scan_step s l))) =
  JsMap.get rid (processingFiles (executor s)).
Proof.
  revert s. induction l as [|entry l IH]; intros s Hnin; simpl; [done|].
  unfold JsMap.keys in Hnin. simpl in Hnin.
  apply not_elem_of_cons in Hnin as [Hne Hnin].
  rewrite (IH (scan_step s entry)) by exact Hnin.
  unfold scan_step. rewrite settle_registry.
  destruct (removes _); [|done].
  by apply get_delete_ne.
Qed.

Lemma store_calls_other l s rid :
  rid ∉ JsMap.keys l -> puts_for rid (store_calls s l) = 0.
Proof.
  induction l as [|entry l IH]; intros Hnin; [done|].
  unfold JsMap.keys in Hnin. simpl in Hnin.
  apply not_elem_of_cons in Hnin as [Hne Hnin].
  unfold store_calls, puts_for in *. simpl.
  rewrite filter_app, length_app, IH by exact Hnin.
  destruct (asks_store _); [|done].
  rewrite filter_cons_False; [done|]. intros [= Heq]. congruence.
Qed.

Lemma scan_fold_get_entry l s rid fi :
  NoDup (JsMap.keys l) -> (rid, fi) ∈ l ->
  JsMap.get rid (processingFiles (executor s)) = Some fi ->
  JsMap.get rid (processingFiles (executor (foldl scan_step s l))) =
  if removes (verdict s (rid, fi)) then None else Some fi.
Proof.
  revert s. induction l as [|[k fi'] l IH]; intros s Hnd Hin Hget; simpl.
  - by apply elem_of_nil in Hin.
  - unfold JsMap.keys in Hnd. simpl in Hnd.
    apply NoDup_cons in Hnd as [Hk Hnd].
    apply elem_of_cons in Hin as [[= <- <-]|Hin].
    + rewrite scan_fold_get_other by exact Hk.
      unfold scan_step; simpl. rewrite settle_registry.
      destruct (removes _); [apply get_delete_eq|exact Hget].
    + assert (k ≠ rid) as Hne.
      { intros ->. apply Hk. apply list_elem_of_fmap. by exists (rid, fi). }
      rewrite (IH (scan_step s (k, fi'))); [| exact Hnd | exact Hin |].
      * unfold scan_step.
        rewrite (verdict_ext s (settle (verdict s (k, fi')) (k, fi').1 s) (rid, fi));
          [done|apply settle_env|apply settle_apiClient].
      * unfold scan_step; simpl. rewrite settle_registry.
        destruct (removes _); [|exact Hget].
        rewrite get_delete_ne by congruence. exact Hget.
Qed.

(** One scan, seen from one entry of a well-formed registry. *)
Lemma scan_entry s rid fi :
  JsMap.wf (processingFiles (executor s)) ->
  JsMap.get rid (processingFiles (executor s)) = Some fi ->
  exists s' tr,
    Tasks.checkProcessedFiles s = (Ok tt, s') /\
    env s' = env s /\
    trace s' = trace s ++ tr /\
    puts_for rid tr = (if asks_store (verdict s (rid, fi)) then 1 else 0) /\
    JsMap.get rid (processingFiles (executor s')) =
      (if removes (verdict s (rid, fi)) then None else Some fi).
Proof.
  intros Hwf Hget.
  rewrite checkProcessedFiles_eq.
  destruct (scan_fold_frame (processingFiles (executor s)) s) as (He & _ & Ht).
  eexists _, _. split_and!; [reflexivity|exact He|exact Ht| |].
  - revert Hwf Hget. generalize (processingFiles (executor s)) as l.
    induction l as [|[k fi'] l IH]; simpl; intros Hwf Hget; [done|].
    apply NoDup_cons in Hwf as [Hk Hwf].
    unfold puts_for in *. rewrite filter_app, length_app.
    destruct (decide (k = rid)) as [->|Hne].
    + injection Hget as ->.
      fold (store_calls s l). fold (puts_for rid (store_calls s l)).
      rewrite store_calls_other by exact Hk.
      destruct (asks_store _); simpl; [|done].
      by rewrite filter_cons_True.
    + rewrite IH by done.
      destruct (asks_store (verdict s (k, fi'))); [|done].
      rewrite filter_cons_False; [done|]. intros [= Heq]. congruence.
  - apply scan_fold_get_entry; [exact Hwf|by apply get_Some_elem_of|exact Hget].
Qed.
End Scan.

(** ** One attempt and the retry loop *)

Section Attempt.
Context `{Host}.

Lemma moveExistingXML_frame r cnpj s o s' :
  Tasks.moveExistingXMLToCNPJFolder r cnpj s = (o, s') ->
  o ≠ OutOfFuel /\ executor s' = executor s /\ monitor s' = monitor s /\
  timers s' = timers s /\ nextHandle s' = nextHandle s /\
  exists tr, trace s' = trace s ++ tr /\ Forall fs_event tr.
Proof.
  unfold Tasks.moveExistingXMLToCNPJFolder, try_catch, mbind, M_bind.
  rewrite fileExists_eq.
  destruct (bool_decide _); simpl.
  2:{ intros [= <- <-]. split_and!; try done. exists []. by rewrite app_nil_r. }
  unfold fs_mkdir, fs_rename. run_m.
  intros Hrun.
  repeat case_match; simplify_eq; simpl.
  all: split_and!; try done.
  all: eexists; split; [rewrite <- ?app_assoc; reflexivity|]; repeat constructor.
Qed.

Lemma waitForProcessedFile_frame r cnpj s :
  exists s', Tasks.waitForProcessedFile r cnpj s = (Ok tt, s') /\
  env s' = env s /\ monitor s' = monitor s /\ trace s' = trace s /\
  retryCounters (executor s') = retryCounters (executor s) /\
  apiClient (executor s') = apiClient (executor s) /\
  runningTasks (executor s') = runningTasks (executor s) /\
  exists fi, processingFiles (executor s') =
             JsMap.set (id r) fi (processingFiles (executor s)).
Proof.
  unfold Tasks.waitForProcessedFile, Tasks.startProcessedFileMonitoring, setInterval.
  run_m. destruct (processedFileInterval (executor s)); simpl;
    eexists; split_and!; try reflexivity; eexists; reflexivity.
Qed.

Lemma processRecord_frame r s o s' :
  Tasks.processRecord r s = (o, s') ->
  o ≠ OutOfFuel /\
  retryCounters (executor s') = retryCounters (executor s) /\
  apiClient (executor s') = apiClient (executor s) /\
  runningTasks (executor s') = runningTasks (executor s) /\
  monitor s' = monitor s /\
  (exists tr, trace s' = trace s ++ tr /\ Forall fs_event tr) /\
  (JsMap.wf (processingFiles (executor s)) ->
   JsMap.wf (processingFiles (executor s'))).
Proof.
  unfold Tasks.processRecord.
  destruct (Tasks.extractCNPJFromChaveAcesso (numero_cte r)) as [cnpj|].
  2:{ intros [= <- <-]. split_and!; try done. exists []. by rewrite app_nil_r. }
  destruct (String.eqb (status r) "pendente").
  2:{ intros [= <- <-]. split_and!; try done. exists []. by rewrite app_nil_r. }
  unfold Tasks.handlePendingDocument, mbind, M_bind.
  destruct (Tasks.moveExistingXMLToCNPJFolder r cnpj s) as [o1 s1] eqn:Hmove.
  apply moveExistingXML_frame in Hmove as (Hfuel & Hex & Hmon & _ & _ & Htr).
  destruct o1 as [target|e|].
  - destruct (waitForProcessedFile_frame r cnpj s1)
      as (s2 & -> & _ & Hmon2 & Htr2 & Hrc & Hc & Hrt & fi & Hpf).
    intros [= <- <-]. rewrite Hrc, Hc, Hrt, Hmon2, Htr2, Hpf, Hex.
    split_and!; try done. intros Hwf. by apply wf_set.
  - intros [= <- <-]. rewrite Hex. done.
  - done.
Qed.

Lemma executeTask_S fuel r s :
  Tasks.executeTask (S fuel) r s =
  match Tasks.processRecord r (begin_task r s) with
  | (Ok _, s2) =>
      (Ok {| success := true; recordId := id r; error := None |},
       end_task r (now (env s)) s2)
  | (Throw e, s2) =>
      Tasks.handleTaskFailure (Tasks.executeTask fuel) r e (end_task r (now (env s)) s2)
  | (OutOfFuel, s2) => (OutOfFuel, s2)
  end.
Proof.
  simpl. unfold try_catch, mbind, M_bind, gets, emit, modify; simpl.
  fold (begin_task r s).
  destruct (Tasks.processRecord r (begin_task r s)) as [[[]|e|] s2]; reflexivity.
Qed.

Lemma handleTaskFailure_eq exec r e s :
  Tasks.handleTaskFailure exec r e s =
  if (retry_count r s <? retryAttempts (tasks config))%nat
  then exec r (sleep (retryDelay (tasks config)) (bump r s))
  else (Ok {| success := false; recordId := id r; error := Some e |}, forget r s).
Proof.
  unfold Tasks.handleTaskFailure, Tasks.delay, retry_count, bump, sleep, forget.
  unfold mbind, M_bind, gets, emit, modify; simpl.
  destruct s as [[rt pf itv [c|] ac] mon en tr tm nh]; simpl;
    destruct (_ <? _)%nat; reflexivity.
Qed.

Lemma retry_count_bump r s : retry_count r (bump r s) = (retry_count r s + 1)%nat.
Proof. unfold retry_count at 1, bump; simpl. by rewrite lookup_insert_eq. Qed.

Lemma retry_count_forget r s : retry_count r (forget r s) = 0%nat.
Proof. unfold retry_count, forget; simpl. by rewrite lookup_delete_eq. Qed.

Lemma schedule_app tr1 tr2 : schedule (tr1 ++ tr2) = schedule tr1 ++ schedule tr2.
Proof. apply List.filter_app. Qed.

Lemma schedule_fs tr : Forall fs_event tr -> schedule tr = [].
Proof.
  induction 1 as [|ev tr Hev _ IH]; [done|].
  unfold schedule in *; simpl. rewrite IH. by destruct ev.
Qed.

Lemma retry_loop (Fails : Env -> Prop) r :
  (forall s, Fails (env s) ->
     exists e s', Tasks.processRecord r s = (Throw e, s') /\ Fails (outside (env s'))) ->
  forall n fuel s,
    Fails (env s) ->
    n = (retryAttempts (tasks config) - retry_count r s)%nat ->
    (n < fuel)%nat ->
    exists e s' tr,
      Tasks.executeTask fuel r s =
        (Ok {| success := false; recordId := id r; error := Some e |}, s') /\
      trace s' = trace s ++ tr /\
      schedule tr = failing_schedule r n /\
      retry_count r s' = 0%nat.
Proof.
  intros Hfails. induction n as [|n IH]; intros fuel s Hs Hn Hfuel.
  - destruct fuel as [|fuel]; [lia|].
    rewrite executeTask_S.
    destruct (Hfails (begin_task r s) Hs) as (e & s2 & Hrun & _).
    rewrite Hrun.
    apply processRecord_frame in Hrun as (_ & Hrc & _ & _ & _ & (tr & Htr & Hfs) & _).
    rewrite handleTaskFailure_eq.
    assert (retry_count r (end_task r (now (env s)) s2) = retry_count r s) as Hcount.
    { unfold retry_count; simpl. by rewrite Hrc. }
    rewrite Hcount.
    destruct (Nat.ltb_spec (retry_count r s) (retryAttempts (tasks config))); [lia|].
    eexists e, _, _. split_and!; [reflexivity| | |apply retry_count_forget].
    + simpl. rewrite Htr. simpl. rewrite <- app_assoc. reflexivity.
    + rewrite schedule_app, (schedule_fs tr) by done. reflexivity.
  - destruct fuel as [|fuel]; [lia|].
    rewrite executeTask_S.
    destruct (Hfails (begin_task r s) Hs) as (e & s2 & Hrun & Hnext).
    rewrite Hrun.
    apply processRecord_frame in Hrun as (_ & Hrc & _ & _ & _ & (tr & Htr & Hfs) & _).
    rewrite handleTaskFailure_eq.
    assert (retry_count r (end_task r (now (env s)) s2) = retry_count r s) as Hcount.
    { unfold retry_count; simpl. by rewrite Hrc. }
    rewrite Hcount.
    destruct (Nat.ltb_spec (retry_count r s) (retryAttempts (tasks config))); [|lia].
    set (s3 := sleep _ _).
    destruct (IH fuel s3) as (e' & s' & tr' & Hexec & Htr' & Hsched & Hzero).
    + exact Hnext.
    + unfold s3, sleep, retry_count; simpl.
      fold (retry_count r (end_task r (now (env s)) s2)).
      rewrite lookup_insert_eq; simpl. rewrite Hcount. lia.
    + lia.
    + exists e', s', (TaskStarted (id r) :: tr ++ Delayed (retryDelay (tasks config)) :: tr').
      split_and!; [exact Hexec| | |exact Hzero].
      * rewrite Htr'. unfold s3; simpl. rewrite Htr; simpl.
        rewrite <- !app_assoc. reflexivity.
      * change (TaskStarted (id r) :: tr ++ Delayed (retryDelay (tasks config)) :: tr')
          with ([TaskStarted (id r)] ++ tr ++ [Delayed (retryDelay (tasks config))] ++ tr').
        rewrite !schedule_app, (schedule_fs tr), Hsched by done.
        reflexivity.
Qed.
End Attempt.

(** ** Malformed and valid keys *)
Lemma length_substring s : forall n m,
  n + m <= String.length s -> String.length (String.substring n m s) = m.
Proof.
  induction s as [|c s IH]; intros [|n] [|m]; simpl; intros Hle; try lia.
  - f_equal. apply (IH 0). simpl. lia.
  - apply IH. lia.
  - apply IH. lia.
Qed.

Lemma extractCNPJ_malformed chaveAcesso :
  malformed chaveAcesso -> Tasks.extractCNPJFromChaveAcesso chaveAcesso = None.
Proof.
  unfold Tasks.extractCNPJFromChaveAcesso, Tasks.is_14_digits.
  intros [Hlen|Hdig].
  - destruct (Nat.eqb_spec (String.length chaveAcesso) 44) as [?|_]; [done|].
    simpl. by rewrite orb_true_r.
  - rewrite Hdig, andb_false_r. simpl. by destruct (_ || _).
Qed.

Lemma extractCNPJ_valid chaveAcesso :
  String.length chaveAcesso = 44 ->
  Tasks.all_digits (String.substring 6 14 chaveAcesso) = true ->
  Tasks.extractCNPJFromChaveAcesso chaveAcesso = Some (String.substring 6 14 chaveAcesso).
Proof.
  intros Hlen Hdig.
  unfold Tasks.extractCNPJFromChaveAcesso, Tasks.is_14_digits.
  rewrite Hlen, Hdig, length_substring by lia. simpl.
  destruct chaveAcesso; [discriminate Hlen|reflexivity].
Qed.

Section MalformedKey.
Context `{Host}.

Lemma processRecord_malformed r s :
  malformed (numero_cte r) ->
  Tasks.processRecord r s = (Throw (CnpjNotExtracted (numero_cte r)), s).
Proof.
  intros Hbad. unfold Tasks.processRecord.
  by rewrite extractCNPJ_malformed.
Qed.

Lemma malformed_retry_loop r :
  malformed (numero_cte r) ->
  forall n fuel s,
    n = (retryAttempts (tasks config) - retry_count r s)%nat ->
    (n < fuel)%nat ->
    exists s',
      Tasks.executeTask fuel r s =
        (Ok {| success := false; recordId := id r;
               error := Some (CnpjNotExtracted (numero_cte r)) |}, s') /\
      trace s' = trace s ++ failing_schedule r n /\
      env s' = Nat.iter n outside (env s) /\
      processingFiles (executor s') = processingFiles (executor s) /\
      retry_count r s' = 0%nat.
Proof.
  intros Hbad. induction n as [|n IH]; intros fuel s Hn Hfuel.
  - destruct fuel as [|fuel]; [lia|].
    rewrite executeTask_S, processRecord_malformed, handleTaskFailure_eq by done.
    change (retry_count r (end_task r (now (env s)) (begin_task r s)))
      with (retry_count r s).
    destruct (Nat.ltb_spec (retry_count r s) (retryAttempts (tasks config))); [lia|].
    eexists. split_and!; [reflexivity|reflexivity|reflexivity|reflexivity|].
    apply retry_count_forget.
  - destruct fuel as [|fuel]; [lia|].
    rewrite executeTask_S, processRecord_malformed, handleTaskFailure_eq by done.
    change (retry_count r (end_task r (now (env s)) (begin_task r s)))
      with (retry_count r s).
    destruct (Nat.ltb_spec (retry_count r s) (retryAttempts (tasks config))); [|lia].
    set (s3 := sleep _ _).
    destruct (IH fuel s3) as (s' & Hexec & Htr & Henv & Hpf & Hzero).
    + unfold s3, sleep, retry_count; simpl.
      rewrite lookup_insert_eq; simpl.
      change (retry_count r (end_task r (now (env s)) (begin_task r s)))
        with (retry_count r s). lia.
    + lia.
    + exists s'. split_and!; [exact Hexec| | | |exact Hzero].
      * rewrite Htr. unfold s3, failing_schedule; simpl.
        rewrite <- !app_assoc. reflexivity.
      * rewrite Henv. unfold s3; simpl. by rewrite Nat.iter_swap.
      * rewrite Hpf. reflexivity.
Qed.
End MalformedKey.

(** ** [executeTask] in general *)
Lemma fs_event_executor_event tr : Forall fs_event tr -> Forall executor_event tr.
Proof. intros Hfs. eapply Forall_impl; [exact Hfs|]. by intros []. Qed.

Lemma picks_app tr1 tr2 : picks (tr1 ++ tr2) = picks tr1 ++ picks tr2.
Proof. apply omap_app. Qed.

Lemma picks_executor tr : Forall executor_event tr -> picks tr = [].
Proof.
  induction 1 as [|ev tr Hev _ IH]; [done|].
  destruct ev; try (by destruct Hev); exact IH.
Qed.

Section ExecuteTask.
Context `{Host}.

Lemma executeTask_frame fuel r : forall s o s',
  Tasks.executeTask fuel r s = (o, s') ->
  (forall e, o ≠ Throw e) /\
  monitor s' = monitor s /\
  (exists tr, trace s' = trace s ++ tr /\ Forall executor_event tr) /\
  (JsMap.wf (processingFiles (executor s)) ->
   JsMap.wf (processingFiles (executor s'))).
Proof.
  induction fuel as [|fuel IH]; intros s o s'.
  - intros [= <- <-]. split_and!; try done. exists []. by rewrite app_nil_r.
  - rewrite executeTask_S.
    destruct (Tasks.processRecord r (begin_task r s)) as [o2 s2] eqn:Hrun.
    apply processRecord_frame in Hrun
      as (Hfuel & Hrc & _ & _ & Hmon & (tr & Htr & Hfs) & Hwf).
    apply fs_event_executor_event in Hfs.
    destruct o2 as [[]|e|]; [| |done].
    + intros [= <- <-]. split_and!; [done|exact Hmon| |exact Hwf].
      exists (TaskStarted (id r) :: tr). simpl. rewrite Htr. simpl.
      rewrite <- app_assoc. split; [done|]. by constructor.
    + rewrite handleTaskFailure_eq.
      destruct (_ <? _)%nat.
      * intros Hrec. apply IH in Hrec as (Hthrow & Hmon' & (tr' & Htr' & Hex') & Hwf').
        split_and!; [exact Hthrow|by rewrite Hmon'| |].
        -- exists (TaskStarted (id r) :: tr ++ Delayed (retryDelay (tasks config)) :: tr').
           split.
           ++ rewrite Htr'. simpl. rewrite Htr. simpl. by rewrite <- !app_assoc.
           ++ constructor; [done|]. apply Forall_app. split; [done|]. by constructor.
        -- intros Hs. apply Hwf'. simpl. by apply Hwf.
      * intros [= <- <-]. split_and!; [done|exact Hmon| |exact Hwf].
        exists (TaskStarted (id r) :: tr). simpl. rewrite Htr. simpl.
        rewrite <- app_assoc. split; [done|]. by constructor.
Qed.

Lemma executeTask_total fuel r : forall s,
  (retryAttempts (tasks config) - retry_count r s < fuel)%nat ->
  (Tasks.executeTask fuel r s).1 ≠ OutOfFuel.
Proof.
  induction fuel as [|fuel IH]; intros s Hfuel; [lia|].
  rewrite executeTask_S.
  destruct (Tasks.processRecord r (begin_task r s)) as [o2 s2] eqn:Hrun.
  apply processRecord_frame in Hrun as (Hnofuel & Hrc & _).
  destruct o2 as [[]|e|]; [done| |done].
  rewrite handleTaskFailure_eq.
  assert (retry_count r (end_task r (now (env s)) s2) = retry_count r s) as Hcount.
  { unfold retry_count; simpl. by rewrite Hrc. }
  rewrite Hcount.
  destruct (Nat.ltb_spec (retry_count r s) (retryAttempts (tasks config))); [|done].
  apply IH.
  unfold sleep, retry_count; simpl. rewrite lookup_insert_eq; simpl.
  fold (retry_count r (end_task r (now (env s)) s2)). rewrite Hcount. lia.
Qed.

Lemma executeTask_returns fuel r s :
  (retryAttempts (tasks config) < fuel)%nat ->
  exists res s', Tasks.executeTask fuel r s = (Ok res, s').
Proof.
  intros Hfuel.
  destruct (Tasks.executeTask fuel r s) as [o s'] eqn:Hrun.
  pose proof (executeTask_total fuel r s ltac:(lia)) as Hnofuel.
  rewrite Hrun in Hnofuel.
  apply executeTask_frame in Hrun as (Hthrow & _).
  destruct o as [res|e|]; [by eexists _, _|by destruct (Hthrow e)|done].
Qed.
End ExecuteTask.

(** ** The scheduler's tick *)

Section Scheduler.
Context `{Host}.
Lemma processRecord_eq fuel r s :
  Monitor.processRecord fuel r s =
  match Tasks.executeTask fuel r (picked r s) with
  | (Ok res, s1) =>
      (Ok tt,
       if success res
       then if put_fails (env s1) (id r) then marked r s1 else counted (marked r s1)
       else s1)
  | (Throw e, s1) => (Ok tt, s1)
  | (OutOfFuel, s1) => (OutOfFuel, s1)
  end.
Proof.
  unfold Monitor.processRecord, markAsProcessed.
  unfold try_catch, mbind, M_bind, gets, emit, modify, throw, mret, M_ret; simpl.
  fold (picked r s).
  destruct (Tasks.executeTask fuel r (picked r s)) as [[res|e|] s1]; [|done|done].
  destruct (success res); [|done]. simpl.
  destruct (put_fails (env s1) (id r)); reflexivity.
Qed.

Lemma processRecord_spec fuel r s :
  (retryAttempts (tasks config) < fuel)%nat ->
  exists res s1,
    Tasks.executeTask fuel r (picked r s) = (Ok res, s1) /\
    (Monitor.processRecord fuel r s).1 = Ok tt /\
    processedCount (monitor (process_step fuel s r)) =
      (processedCount (monitor s) +
       (if success res && negb (put_fails (env s1) (id r)) then 1 else 0))%nat /\
    exists tr, trace (process_step fuel s r) = trace s ++ RecordPicked (id r) :: tr /\
               picks tr = [].
Proof.
  intros Hfuel. unfold process_step. rewrite processRecord_eq.
  destruct (executeTask_returns fuel r (picked r s) Hfuel) as (res & s1 & Hrun).
  rewrite Hrun. exists res, s1.
  apply executeTask_frame in Hrun as (_ & Hmon & (tr & Htr & Hev) & _).
  simpl in Hmon, Htr.
  split_and!; [done|done| |].
  - destruct (success res); simpl; [|rewrite Hmon; lia].
    destruct (put_fails (env s1) (id r)); simpl; rewrite Hmon; lia.
  - destruct (success res); simpl.
    + exists (tr ++ [StorePut (id r)]). split.
      * destruct (put_fails (env s1) (id r)); simpl; rewrite Htr;
          by rewrite <- !app_assoc.
      * rewrite picks_app, picks_executor by done. done.
    + exists tr. split; [by rewrite Htr, <- app_assoc|by apply picks_executor].
Qed.

Lemma for_each_processRecord fuel records : forall s,
  (retryAttempts (tasks config) < fuel)%nat ->
  for_each records (Monitor.processRecord fuel) s =
    (Ok tt, foldl (process_step fuel) s records) /\
  exists tr, trace (foldl (process_step fuel) s records) = trace s ++ tr /\
             picks tr = map id records.
Proof.
  induction records as [|r records IH]; intros s Hfuel; simpl.
  - split; [done|]. exists []. by rewrite app_nil_r.
  - destruct (processRecord_spec fuel r s Hfuel) as (res & s1 & _ & Hok & _ & tr & Htr & Hp).
    destruct (IH (process_step fuel s r) Hfuel) as (Hrun & tr' & Htr' & Hp').
    split.
    + unfold mbind, M_bind. unfold process_step in *.
      destruct (Monitor.processRecord fuel r s) as [o s2]. simpl in *. subst o.
      exact Hrun.
    + exists (RecordPicked (id r) :: tr ++ tr'). split.
      * rewrite Htr', Htr. by rewrite <- app_assoc.
      * change (RecordPicked (id r) :: tr ++ tr') with ([RecordPicked (id r)] ++ tr ++ tr').
        rewrite !picks_app, Hp, Hp'. reflexivity.
Qed.

Lemma checkDatabase_eq fuel s records :
  (retryAttempts (tasks config) < fuel)%nat ->
  pending (env s) = Some records ->
  Monitor.checkDatabase fuel s =
    (Ok tt, foldl (process_step fuel) (stamped s) records).
Proof.
  intros Hfuel Hpend.
  unfold Monitor.checkDatabase, getRecordsToProcess.
  unfold try_catch, mbind, M_bind, gets, modify, mret, M_ret; simpl.
  rewrite Hpend. fold (stamped s).
  destruct records as [|r records]; [reflexivity|].
  change (0 <? List.length (r :: records))%nat with true. cbv iota.
  destruct (for_each_processRecord fuel (r :: records) (stamped s) Hfuel) as [-> _].
  reflexivity.
Qed.
End Scheduler.

(** ** Properties every method keeps *)

Section Preservation.
Context (P : Sys -> Prop).

Lemma preserves_ret {A} (a : A) : preserves P (mret a).
Proof. by intros s. Qed.

Lemma preserves_gets {A} (f : Sys -> A) : preserves P (gets f).
Proof. by intros s. Qed.

Lemma preserves_throw {A} e : preserves P (@throw A e).
Proof. by intros s. Qed.

Lemma preserves_out_of_fuel {A} : preserves P (@out_of_fuel A).
Proof. by intros s. Qed.

Lemma preserves_modify f : (forall s, P s -> P (f s)) -> preserves P (modify f).
Proof. intros Hf s. apply Hf. Qed.

Lemma preserves_bind {A B} (m : M A) (k : A -> M B) :
  preserves P m -> (forall a, preserves P (k a)) -> preserves P (m ≫= k).
Proof.
  intros Hm Hk s Hs. unfold mbind, M_bind.
  specialize (Hm s Hs). destruct (m s) as [[a|e|] s1]; simpl in *; [|done|done].
  by apply Hk.
Qed.

Lemma preserves_try {A} (m : M A) (h : Error -> M A) :
  preserves P m -> (forall e, preserves P (h e)) -> preserves P (try_catch m h).
Proof.
  intros Hm Hh s Hs. unfold try_catch.
  specialize (Hm s Hs). destruct (m s) as [[a|e|] s1]; simpl in *; [done| |done].
  by apply Hh.
Qed.

Lemma preserves_for_each {A} (l : list A) (body : A -> M unit) :
  (forall x, preserves P (body x)) -> preserves P (for_each l body).
Proof.
  intros Hbody. induction l as [|x l IH]; simpl.
  - apply preserves_ret.
  - apply preserves_bind; [apply Hbody|intros _; exact IH].
Qed.
End Preservation.

Create HintDb preserves.
#[export] Hint Resolve preserves_ret preserves_gets preserves_throw
  preserves_out_of_fuel preserves_bind preserves_try preserves_for_each : preserves.
Section RegistryInvariant.
Context `{Host}.

(** A change that leaves the registry alone. *)
Lemma preserves_modify_frame f :
  (forall s, processingFiles (executor (f s)) = processingFiles (executor s)) ->
  preserves registry_wf (modify f).
Proof. intros Hf. apply preserves_modify. intros s. unfold registry_wf. by rewrite Hf. Qed.

Lemma preserves_emit ev : preserves registry_wf (emit ev).
Proof. by apply preserves_modify_frame. Qed.

Local Hint Resolve preserves_emit : preserves.

Lemma preserves_fs_mkdir dir : preserves registry_wf (fs_mkdir dir).
Proof.
  unfold fs_mkdir. apply preserves_bind; [auto with preserves|intros _].
  apply preserves_bind; [auto with preserves|intros e].
  destruct (mkdir_fails e dir); [auto with preserves|].
  by apply preserves_modify_frame.
Qed.

Lemma preserves_setInterval k ms : preserves registry_wf (setInterval k ms).
Proof.
  unfold setInterval.
  repeat (apply preserves_bind; [|intros ?]); auto with preserves;
    by apply preserves_modify_frame.
Qed.

Lemma preserves_start : preserves registry_wf Tasks.startProcessedFileMonitoring.
Proof.
  unfold Tasks.startProcessedFileMonitoring.
  apply preserves_bind; [auto with preserves|intros [h|]]; [auto with preserves|].
  apply preserves_bind; [apply preserves_setInterval|intros h].
  by apply preserves_modify_frame.
Qed.

Lemma preserves_stop : preserves registry_wf Tasks.stopProcessedFileMonitoring.
Proof.
  unfold Tasks.stopProcessedFileMonitoring, clearInterval.
  apply preserves_bind; [auto with preserves|intros [h|]]; [|auto with preserves].
  apply preserves_bind; [|intros _]; by apply preserves_modify_frame.
Qed.

Lemma scan_fold_wf l : forall s,
  registry_wf s -> registry_wf (foldl scan_step s l).
Proof.
  induction l as [|entry l IH]; intros s Hs; simpl; [done|].
  apply IH. unfold registry_wf, scan_step in *. rewrite settle_registry.
  destruct (removes _); [by apply wf_delete|done].
Qed.

Lemma preserves_checkProcessedFiles : preserves registry_wf Tasks.checkProcessedFiles.
Proof. intros s Hs. rewrite checkProcessedFiles_eq. by apply scan_fold_wf. Qed.

Lemma preserves_executeTask fuel r : preserves registry_wf (Tasks.executeTask fuel r).
Proof.
  intros s Hs. destruct (Tasks.executeTask fuel r s) as [o s'] eqn:Hrun.
  apply executeTask_frame in Hrun as (_ & _ & _ & Hwf). by apply Hwf.
Qed.

Lemma preserves_markAsProcessed c rid : preserves registry_wf (markAsProcessed c rid).
Proof.
  unfold markAsProcessed.
  repeat (apply preserves_bind; [|intros ?]); auto with preserves.
  destruct (put_fails _ _); auto with preserves.
Qed.

Lemma preserves_checkDatabase fuel : preserves registry_wf (Monitor.checkDatabase fuel).
Proof.
  unfold Monitor.checkDatabase, getRecordsToProcess.
  apply preserves_try; [|auto with preserves].
  apply preserves_bind; [auto with preserves|intros t].
  apply preserves_bind; [by apply preserves_modify_frame|intros _].
  apply preserves_bind; [auto with preserves|intros client].
  apply preserves_bind.
  { apply preserves_bind; [auto with preserves|intros e].
    destruct (pending e); auto with preserves. }
  intros records. destruct (_ <? _)%nat; [|auto with preserves].
  apply preserves_for_each. intros r. unfold Monitor.processRecord.
  apply preserves_try; [|auto with preserves].
  apply preserves_bind; [auto with preserves|intros _].
  apply preserves_bind; [apply preserves_executeTask|intros res].
  destruct (success res); [|auto with preserves].
  apply preserves_bind; [auto with preserves|intros c].
  apply preserves_bind; [apply preserves_markAsProcessed|intros _].
  by apply preserves_modify_frame.
Qed.

Lemma preserves_run c : preserves registry_wf (run c).
Proof.
  destruct c; simpl.
  - unfold Tasks.setupDirectories.
    apply preserves_try; [|auto with preserves].
    apply preserves_for_each. apply preserves_fs_mkdir.
  - apply preserves_bind; [apply preserves_executeTask|auto with preserves].
  - apply preserves_checkProcessedFiles.
  - apply preserves_start.
  - apply preserves_stop.
  - unfold Tasks.cleanup.
    apply preserves_bind; [apply preserves_stop|intros _].
    apply preserves_bind; [|intros _].
    + apply preserves_modify. intros s _. apply NoDup_nil_2.
    + by apply preserves_modify_frame.
  - apply preserves_checkDatabase.
Qed.

Lemma reachable_registry_wf s : reachable s -> registry_wf s.
Proof.
  induction 1 as [s Hnew|c s _ IH|f s _ IH].
  - unfold registry_wf. rewrite Hnew. apply NoDup_nil_2.
  - by apply preserves_run.
  - exact IH.
Qed.
End RegistryInvariant.

(** ** Single steps *)

Section Steps.
Context `{Host}.
Lemma startProcessedFileMonitoring_eq s :
  Tasks.startProcessedFileMonitoring s =
  (Ok tt, match processedFileInterval (executor s) with
          | Some _ => s
          | None => started s
          end).
Proof.
  unfold Tasks.startProcessedFileMonitoring, setInterval. run_m.
  destruct (processedFileInterval (executor s)); reflexivity.
Qed.

Lemma waitForProcessedFile_eq r cnpj s :
  Tasks.waitForProcessedFile r cnpj s =
  Tasks.startProcessedFileMonitoring (registered r cnpj s).
Proof. reflexivity. Qed.

Lemma moveExistingXML_ok r cnpj s content :
  let fileName := numero_cte r +:+ ".xml" in
  let sourcePath := path_join [sourceFolder (xmlProcessing config); fileName] in
  let cnpjFolder := path_join [cnpjBasePath (xmlProcessing config); cnpj] in
  let processed := path_join [cnpjFolder; processedFolder (xmlProcessing config)] in
  let targetPath := path_join [cnpjFolder; fileName] in
  files (env s) !! sourcePath = Some content ->
  mkdir_fails (env s) cnpjFolder = false ->
  mkdir_fails (env s) processed = false ->
  rename_fails (env s) sourcePath targetPath = false ->
  Tasks.moveExistingXMLToCNPJFolder r cnpj s =
  (Ok targetPath,
   with_env (with_files (fun fs => <[targetPath := content]> (base.delete sourcePath fs)))
     (with_env (with_dirs (fun d => {[processed]} ∪ ({[cnpjFolder]} ∪ d)))
        (with_trace (fun t => t ++ [Mkdir cnpjFolder; Mkdir processed;
                                    Renamed sourcePath targetPath]) s))).
Proof.
  intros fileName sourcePath cnpjFolder processed targetPath Hsrc Hmk1 Hmk2 Hrn.
  unfold Tasks.moveExistingXMLToCNPJFolder, try_catch, mbind, M_bind.
  rewrite fileExists_eq.
  fold fileName. fold sourcePath. rewrite Hsrc.
  rewrite bool_decide_eq_true_2 by eauto. simpl.
  unfold fs_mkdir, fs_rename. run_m.
  fold fileName. fold cnpjFolder. rewrite Hmk1. simpl.
  fold processed. rewrite Hmk2. simpl.
  fold sourcePath. fold targetPath. rewrite Hrn, Hsrc. simpl.
  unfold with_env, with_trace, with_dirs, with_files; simpl.
  rewrite <- !app_assoc. reflexivity.
Qed.

Lemma processRecord_missing_source r cnpj s :
  Tasks.extractCNPJFromChaveAcesso (numero_cte r) = Some cnpj ->
  status r = "pendente" ->
  files (env s) !!
    path_join [sourceFolder (xmlProcessing config); numero_cte r +:+ ".xml"] = None ->
  Tasks.processRecord r s =
  (Throw (XmlNotFound
     (path_join [sourceFolder (xmlProcessing config); numero_cte r +:+ ".xml"])), s).
Proof.
  intros Hcnpj Hst Hsrc. unfold Tasks.processRecord. rewrite Hcnpj, Hst. simpl.
  unfold Tasks.handlePendingDocument, Tasks.moveExistingXMLToCNPJFolder,
    try_catch, mbind, M_bind.
  rewrite fileExists_eq, Hsrc.
  rewrite bool_decide_eq_false_2 by (intros [? ?]; done). reflexivity.
Qed.
End Steps.

Section Attempts.
Context `{Host}.

Lemma attempts_schedule tr : attempts (schedule tr) = attempts tr.
Proof.
  unfold attempts, schedule.
  induction tr as [|ev tr IH]; [done|].
  destruct ev; simpl; by rewrite ?IH.
Qed.

Lemma attempts_failing_schedule r n : attempts (failing_schedule r n) = S n.
Proof.
  unfold failing_schedule, attempts. simpl. f_equal.
  induction n as [|n IH]; [done|]. simpl. by rewrite IH.
Qed.
End Attempts.

(** ** What no method of the executor does *)

Ltac unfold_methods :=
  unfold Tasks.setupDirectories, Tasks.fileExists, Tasks.delay,
    Tasks.moveExistingXMLToCNPJFolder, Tasks.startProcessedFileMonitoring,
    Tasks.waitForProcessedFile, Tasks.handlePendingDocument, Tasks.processRecord,
    Tasks.executeSpecificTasks, Tasks.checkIfAuthorized, Tasks.markCTEAsEmitted,
    Tasks.checkProcessedFile, Tasks.checkProcessedFiles,
    Tasks.stopProcessedFileMonitoring, Tasks.handleTaskFailure, Tasks.cleanup,
    Monitor.processRecord, Monitor.checkDatabase,
    fs_access, fs_mkdir, fs_rename, fs_readFile,
    markAsProcessed, getRecordsToProcess, emit.

(** Walk through a method: binds, handlers, loops and branches, leaving the
    state changes to [tac]. *)
Ltac walk tac :=
  repeat first
    [ solve [auto 1 with preserves]
    | apply preserves_ret
    | apply preserves_gets
    | apply preserves_throw
    | apply preserves_out_of_fuel
    | apply preserves_bind; [|intros ?]
    | apply preserves_try; [|intros ?]
    | apply preserves_for_each; intros ?
    | apply preserves_modify; tac
    | match goal with
      | |- preserves _ (if ?b then _ else _) => destruct b
      | |- preserves _ (match ?x with _ => _ end) => destruct x
      | |- preserves _ (let '(_, _) := ?x in _) => destruct x
      end
    | progress unfold_methods
    | progress unfold setInterval, clearInterval ].

Section NoClient.
Context `{Host}.

Ltac keep_unwired :=
  intros ? Hs; unfold unwired in *; simpl; repeat case_match; exact Hs.

Lemma unwired_executeTask fuel r : preserves unwired (Tasks.executeTask fuel r).
Proof.
  induction fuel as [|fuel IH]; simpl; [apply preserves_out_of_fuel|].
  unfold_methods. walk keep_unwired. all: try apply IH.
Qed.

Lemma unwired_run c : preserves unwired (run c).
Proof.
  destruct c; simpl.
  - unfold_methods. walk keep_unwired.
  - walk keep_unwired. apply unwired_executeTask.
  - unfold_methods. walk keep_unwired.
  - unfold_methods. walk keep_unwired.
  - unfold_methods. walk keep_unwired.
  - unfold_methods. walk keep_unwired.
  - unfold_methods. walk keep_unwired. apply unwired_executeTask.
Qed.

Lemma reachable_unwired s : reachable s -> unwired s.
Proof.
  induction 1 as [s Hnew|c s _ IH|f s _ IH].
  - unfold unwired. by rewrite Hnew.
  - by apply unwired_run.
  - exact IH.
Qed.
End NoClient.

(** * The properties of the specification *)

(** ** The watch loop *)

(** The executor the application builds has no [apiClient]: the scan of an
    authorized entry issues no store call and keeps the entry. *)
Lemma scan_without_client `{Host} (s : Sys) (rid : Z) (fi : FileInfo) (content : string) :
  registry_wf s ->
  JsMap.get rid (processingFiles (executor s)) = Some fi ->
  files (env s) !! processedPath fi = Some content ->
  read_fails (env s) (processedPath fi) = false ->
  has_marker content = true ->
  apiClient (executor s) = None ->
  exists s' tr,
    Tasks.checkProcessedFiles s = (Ok tt, s') /\
    trace s' = trace s ++ tr /\
    puts_for rid tr = 0 /\
    JsMap.get rid (processingFiles (executor s')) = Some fi.
Proof.
  intros Hwf Hget Hfile Hread Hmark Hclient.
  destruct (scan_entry s rid fi Hwf Hget) as (s' & tr & Hrun & _ & Htr & Hputs & Hreg).
  exists s', tr. split_and!; [exact Hrun|exact Htr| |].
  - rewrite Hputs. unfold verdict, authorized_in; simpl.
    rewrite Hfile, Hread, Hmark, Hclient.
    by rewrite bool_decide_eq_true_2 by eauto.
  - rewrite Hreg. unfold verdict, authorized_in; simpl.
    rewrite Hfile, Hread, Hmark, Hclient.
    by rewrite bool_decide_eq_true_2 by eauto.
Qed.

(** C1, where the code departs from it. The constructor of the executor
    sets no [apiClient] and no method assigns one, so that in every state
    the application reaches the field is undefined. For an entry whose
    processed file exists and is classified authorized, [markCTEAsEmitted]
    then fails with a [TypeError] before any request is made; the scan
    catches it, issues no store call for the record and keeps the entry,
    at this scan and, the state of the entry being the same, at every
    later one. *)
Theorem authorized_entry_is_never_marked `{Host} (s : Sys) (rid : Z) (fi : FileInfo)
    (content : string) :
  reachable s ->
  JsMap.get rid (processingFiles (executor s)) = Some fi ->
  files (env s) !! processedPath fi = Some content ->
  read_fails (env s) (processedPath fi) = false ->
  has_marker content = true ->
  Tasks.checkIfAuthorized (processedPath fi) s = (Ok true, s) /\
  Tasks.markCTEAsEmitted rid s =
    (Throw (TypeError "this.apiClient is undefined"), s) /\
  exists s' tr,
    Tasks.checkProcessedFiles s = (Ok tt, s') /\
    trace s' = trace s ++ tr /\
    puts_for rid tr = 0 /\
    JsMap.get rid (processingFiles (executor s')) = Some fi /\
    files (env s') !! processedPath fi = Some content /\
    reachable s'.
Proof.
  intros Hreach Hget Hfile Hread Hmark.
  pose proof (reachable_unwired s Hreach) as Hnone. unfold unwired in Hnone.
  pose proof (reachable_registry_wf s Hreach) as Hwf.
  split_and!.
  - by rewrite checkIfAuthorized_eq, Hread, Hfile, Hmark.
  - by rewrite markCTEAsEmitted_eq, Hnone.
  - destruct (scan_without_client s rid fi content Hwf Hget Hfile Hread Hmark Hnone)
      as (s' & tr & Hrun & Htr & Hputs & Hreg).
    exists s', tr. split_and!; try done.
    + destruct (scan_entry s rid fi Hwf Hget) as (s2 & tr2 & Hrun2 & Henv & _).
      rewrite Hrun in Hrun2. injection Hrun2 as <-. by rewrite Henv.
    + replace s' with (run CallCheckProcessedFiles s).2
        by (simpl; by rewrite Hrun).
      by apply reach_call.
Qed.

Lemma authorized_entry_is_never_marked_witness :
  Tasks.checkIfAuthorized (processedPath example_entry) authorized_system
    = (Ok true, authorized_system) /\
  Tasks.markCTEAsEmitted 7 authorized_system =
    (Throw (TypeError "this.apiClient is undefined"), authorized_system) /\
  exists s' tr,
    @Tasks.checkProcessedFiles idle_host authorized_system = (Ok tt, s') /\
    trace s' = trace authorized_system ++ tr /\
    puts_for 7 tr = 0 /\
    JsMap.get 7%Z (processingFiles (executor s')) = Some example_entry /\
    files (env s') !! processedPath example_entry = Some "<cStat>100</cStat>" /\
    @reachable idle_host s'.
Proof.
  apply (@authorized_entry_is_never_marked idle_host authorized_system
           7%Z example_entry "<cStat>100</cStat>").
  - exact (@reach_world idle_host authorize _
             (@reach_call idle_host (CallExecuteTask 1 example_record) _
                (@reach_new idle_host (system_of Tasks.new_TaskExecutor ready_env)
                   eq_refl))).
  - vm_compute. reflexivity.
  - vm_compute. reflexivity.
  - reflexivity.
  - vm_compute. reflexivity.
Defined.

(** C9. An entry whose processed file is absent and whose age exceeds
    [processingTimeout] (600000 ms in config.js) is removed by the scan,
    and the scan issues no store call for its record. *)
Theorem timeout_drops_entry `{Host} (s : Sys) (rid : Z) (fi : FileInfo) :
  registry_wf s ->
  JsMap.get rid (processingFiles (executor s)) = Some fi ->
  files (env s) !! processedPath fi = None ->
  (processingTimeout (xmlProcessing config) < now (env s) - startTime fi)%Z ->
  processingTimeout (xmlProcessing default_config) = 600000%Z /\
  exists s' tr,
    Tasks.checkProcessedFiles s = (Ok tt, s') /\
    trace s' = trace s ++ tr /\
    puts_for rid tr = 0 /\
    JsMap.get rid (processingFiles (executor s')) = None.
Proof.
  intros Hwf Hget Hfile Hlate. split; [reflexivity|].
  destruct (scan_entry s rid fi Hwf Hget) as (s' & tr & Hrun & _ & Htr & Hputs & Hreg).
  assert (verdict s (rid, fi) = Dropped) as Hv.
  { unfold verdict; simpl. rewrite Hfile.
    rewrite bool_decide_eq_false_2 by (intros [? ?]; done).
    by destruct (Z.ltb_spec (processingTimeout (xmlProcessing config))
                   (now (env s) - startTime fi)); [|lia]. }
  rewrite Hv in Hputs, Hreg.
  by exists s', tr.
Qed.

Lemma timeout_drops_entry_witness :
  processingTimeout (xmlProcessing default_config) = 600000%Z /\
  exists s' tr,
    @Tasks.checkProcessedFiles idle_host (system_of (watching None) late_env) = (Ok tt, s') /\
    trace s' = [] ++ tr /\
    puts_for 7 tr = 0 /\
    JsMap.get 7%Z (processingFiles (executor s')) = None.
Proof.
  apply (@timeout_drops_entry idle_host (system_of (watching None) late_env)
           7%Z example_entry).
  - unfold registry_wf, JsMap.wf. apply (bool_decide_unpack _). vm_compute. exact I.
  - reflexivity.
  - reflexivity.
  - vm_compute. reflexivity.
Defined.

(** C10. When the processed file exists and reading it fails,
    [checkIfAuthorized] answers [false] and throws nothing; the scan then
    issues no store call for the record and keeps its entry. *)
Theorem read_failure_is_not_authorized `{Host} (s : Sys) (rid : Z) (fi : FileInfo) :
  registry_wf s ->
  JsMap.get rid (processingFiles (executor s)) = Some fi ->
  is_Some (files (env s) !! processedPath fi) ->
  read_fails (env s) (processedPath fi) = true ->
  Tasks.checkIfAuthorized (processedPath fi) s = (Ok false, s) /\
  exists s' tr,
    Tasks.checkProcessedFiles s = (Ok tt, s') /\
    trace s' = trace s ++ tr /\
    puts_for rid tr = 0 /\
    JsMap.get rid (processingFiles (executor s')) = Some fi.
Proof.
  intros Hwf Hget Hfile Hread. split.
  - by rewrite checkIfAuthorized_eq, Hread.
  - destruct (scan_entry s rid fi Hwf Hget) as (s' & tr & Hrun & _ & Htr & Hputs & Hreg).
    assert (verdict s (rid, fi) = NotAuthorized) as Hv.
    { unfold verdict, authorized_in; simpl.
      by rewrite bool_decide_eq_true_2, Hread by done. }
    rewrite Hv in Hputs, Hreg.
    by exists s', tr.
Qed.

Lemma read_failure_is_not_authorized_witness :
  Tasks.checkIfAuthorized (processedPath example_entry)
    (system_of (watching (Some example_client)) (processed_env false true 2000))
    = (Ok false, system_of (watching (Some example_client)) (processed_env false true 2000)) /\
  exists s' tr,
    @Tasks.checkProcessedFiles idle_host
      (system_of (watching (Some example_client)) (processed_env false true 2000))
      = (Ok tt, s') /\
    trace s' = [] ++ tr /\
    puts_for 7 tr = 0 /\
    JsMap.get 7%Z (processingFiles (executor s')) = Some example_entry.
Proof.
  apply (@read_failure_is_not_authorized idle_host
           (system_of (watching (Some example_client)) (processed_env false true 2000))
           7%Z example_entry).
  - unfold registry_wf, JsMap.wf. apply (bool_decide_unpack _). vm_compute. exact I.
  - reflexivity.
  - apply (bool_decide_unpack _). vm_compute. exact I.
  - reflexivity.
Defined.

(** ** Retries *)

(** C2 (as amended). For a record whose chave de acesso is malformed,
    [processRecord] throws before it touches the file system or the
    registry, and [executeTask] handles that failure as it handles every
    other: it re-attempts once per retry the record's counter still allows,
    each time after a wait of [retryDelay]; then it returns a failure result
    and discards the counter. *)
Theorem malformed_key_is_retried `{Host} (r : CteRecord) (s : Sys) (fuel : nat) :
  malformed (numero_cte r) ->
  (retryAttempts (tasks config) < fuel)%nat ->
  Tasks.processRecord r s = (Throw (CnpjNotExtracted (numero_cte r)), s) /\
  exists s',
    Tasks.executeTask fuel r s =
      (Ok {| success := false; recordId := id r;
             error := Some (CnpjNotExtracted (numero_cte r)) |}, s') /\
    trace s' = trace s ++
      failing_schedule r (retryAttempts (tasks config) - retry_count r s) /\
    env s' = Nat.iter (retryAttempts (tasks config) - retry_count r s) outside (env s) /\
    processingFiles (executor s') = processingFiles (executor s) /\
    retry_count r s' = 0%nat.
Proof.
  intros Hbad Hfuel. split; [by apply processRecord_malformed|].
  apply malformed_retry_loop; [exact Hbad|reflexivity|lia].
Qed.

Lemma malformed_key_is_retried_witness :
  @Tasks.processRecord idle_host malformed_record fresh_system =
    (Throw (CnpjNotExtracted "123"), fresh_system) /\
  exists s',
    @Tasks.executeTask idle_host 4 malformed_record fresh_system =
      (Ok {| success := false; recordId := 8;
             error := Some (CnpjNotExtracted "123") |}, s') /\
    trace s' = [] ++ @failing_schedule idle_host malformed_record
                       (3 - retry_count malformed_record fresh_system) /\
    env s' = Nat.iter (3 - retry_count malformed_record fresh_system) (fun e => e) quiet_env /\
    processingFiles (executor s') = [] /\
    retry_count malformed_record s' = 0%nat.
Proof.
  apply (@malformed_key_is_retried idle_host malformed_record fresh_system 4).
  - left. vm_compute. lia.
  - vm_compute. lia.
Defined.

(** C2, as the specification states it, fails: the run of a record whose
    key has three characters waits three times and makes four attempts. *)
Lemma malformed_key_run_waits_and_reattempts :
  let s' := (@Tasks.executeTask idle_host 4 malformed_record fresh_system).2 in
  malformed (numero_cte malformed_record) /\
  trace s' = [TaskStarted 8; Delayed 2000; TaskStarted 8; Delayed 2000;
              TaskStarted 8; Delayed 2000; TaskStarted 8] /\
  ~ (attempts (trace s') = 1%nat /\ Delayed 2000 ∉ trace s').
Proof.
  split_and!.
  - left. vm_compute. lia.
  - vm_compute. reflexivity.
  - intros [Hone _]. vm_compute in Hone. discriminate Hone.
Qed.

(** C3 (as amended). When every attempt on a record fails, [executeTask]
    returns a failure result after the first attempt and one re-attempt per
    retry the record's counter still allows: [retryAttempts] re-attempts,
    [retryAttempts + 1] attempts in total, for a record with no retries
    counted yet (3 and 4 with config.js). It waits [retryDelay] (2000 ms
    in config.js) before each re-attempt and discards the counter at the
    end. *)
Theorem failing_record_attempts `{Host} (Fails : Env -> Prop) (r : CteRecord)
    (s : Sys) (fuel : nat) :
  (forall s0, Fails (env s0) ->
     exists e s1, Tasks.processRecord r s0 = (Throw e, s1) /\ Fails (outside (env s1))) ->
  Fails (env s) ->
  (retryAttempts (tasks config) < fuel)%nat ->
  (retryAttempts (tasks default_config) = 3%nat /\
   retryDelay (tasks default_config) = 2000%Z) /\
  exists e s' tr,
    Tasks.executeTask fuel r s =
      (Ok {| success := false; recordId := id r; error := Some e |}, s') /\
    trace s' = trace s ++ tr /\
    schedule tr =
      failing_schedule r (retryAttempts (tasks config) - retry_count r s) /\
    attempts tr = S (retryAttempts (tasks config) - retry_count r s) /\
    retry_count r s' = 0%nat.
Proof.
  intros Hfails Hs Hfuel. split; [done|].
  destruct (retry_loop Fails r Hfails
              (retryAttempts (tasks config) - retry_count r s) fuel s Hs eq_refl)
    as (e & s' & tr & Hrun & Htr & Hsched & Hzero); [lia|].
  exists e, s', tr. split_and!; [exact Hrun|exact Htr|exact Hsched| |exact Hzero].
  rewrite <- attempts_schedule, Hsched. apply attempts_failing_schedule.
Qed.

Lemma failing_record_attempts_witness :
  (retryAttempts (tasks default_config) = 3%nat /\
   retryDelay (tasks default_config) = 2000%Z) /\
  exists e s' tr,
    @Tasks.executeTask idle_host 4 example_record fresh_system =
      (Ok {| success := false; recordId := 7; error := Some e |}, s') /\
    trace s' = [] ++ tr /\
    schedule tr =
      @failing_schedule idle_host example_record (3 - retry_count example_record fresh_system) /\
    attempts tr = S (3 - retry_count example_record fresh_system) /\
    retry_count example_record s' = 0%nat.
Proof.
  apply (@failing_record_attempts idle_host
           (fun e => files e !! source_of example_key = None)
           example_record fresh_system 4).
  - intros s0 Hs0. eexists _, _. split; [|exact Hs0].
    apply (@processRecord_missing_source idle_host example_record "12345678000199");
      [vm_compute; reflexivity|reflexivity|exact Hs0].
  - reflexivity.
  - vm_compute. lia.
Defined.

(** C3, as the specification states it, fails: with config.js the run of a
    record whose XML file is never in the source folder makes four attempts,
    not [retryAttempts = 3]. *)
Lemma failing_run_makes_four_attempts :
  let run := @Tasks.executeTask idle_host 4 example_record fresh_system in
  success <$> (match run.1 with Ok res => Some res | _ => None end) = Some false /\
  attempts (trace run.2) = 4%nat /\
  ~ (attempts (trace run.2) = retryAttempts (tasks (@config idle_host))).
Proof.
  split_and!.
  - vm_compute. reflexivity.
  - vm_compute. reflexivity.
  - vm_compute. discriminate.
Qed.

(** C4, at the input where the code departs from it. The XML file of
    record 7 is missing at the first attempt and arrives during the wait; the
    second attempt succeeds, [executeTask] returns [success: true], and the
    retry counter of record 7 still holds 1. *)
Theorem success_leaves_retry_count :
  let run := @Tasks.executeTask arriving_host 4 example_record fresh_system in
  run.1 = Ok {| success := true; recordId := 7; error := None |} /\
  schedule (trace run.2) = [TaskStarted 7; Delayed 2000; TaskStarted 7] /\
  retry_count example_record run.2 = 1%nat.
Proof. split_and!; vm_compute; reflexivity. Qed.

(** ** The scheduler *)

(** C5. A tick that fetched [records] runs [processRecord] on every one of
    them, in order, whatever the executor reports for the others: the tick
    is the left-to-right composition of the per-record steps and the
    records picked are exactly the fetched ones. No step throws. A step
    adds one to [processedCount] when [executeTask] reported success and the
    store accepted the mark, and leaves it alone otherwise. *)
Theorem batch_survives_failures `{Host} (fuel : nat) (s : Sys) (records : list CteRecord) :
  (retryAttempts (tasks config) < fuel)%nat ->
  pending (env s) = Some records ->
  Monitor.checkDatabase fuel s =
    (Ok tt, foldl (process_step fuel) (stamped s) records) /\
  (exists tr,
     trace (foldl (process_step fuel) (stamped s) records) = trace s ++ tr /\
     picks tr = map id records) /\
  (forall r s0,
     exists res s1,
       Tasks.executeTask fuel r (picked r s0) = (Ok res, s1) /\
       (Monitor.processRecord fuel r s0).1 = Ok tt /\
       processedCount (monitor (process_step fuel s0 r)) =
         (processedCount (monitor s0) +
          (if success res && negb (put_fails (env s1) (id r)) then 1 else 0))%nat).
Proof.
  intros Hfuel Hpend. split_and!.
  - by apply checkDatabase_eq.
  - destruct (for_each_processRecord fuel records (stamped s) Hfuel) as (_ & tr & Htr & Hp).
    by exists tr.
  - intros r s0.
    destruct (processRecord_spec fuel r s0 Hfuel) as (res & s1 & Hrun & Hok & Hcount & _).
    by exists res, s1.
Qed.

Lemma batch_survives_failures_witness :
  let s := system_of Tasks.new_TaskExecutor batch_env in
  @Monitor.checkDatabase idle_host 4 s =
    (Ok tt, foldl (@process_step idle_host 4) (stamped s) batch) /\
  (exists tr,
     trace (foldl (@process_step idle_host 4) (stamped s) batch) = trace s ++ tr /\
     picks tr = map id batch) /\
  (forall r s0,
     exists res s1,
       @Tasks.executeTask idle_host 4 r (picked r s0) = (Ok res, s1) /\
       (@Monitor.processRecord idle_host 4 r s0).1 = Ok tt /\
       processedCount (monitor (@process_step idle_host 4 s0 r)) =
         (processedCount (monitor s0) +
          (if success res && negb (put_fails (env s1) (id r)) then 1 else 0))%nat).
Proof.
  apply (@batch_survives_failures idle_host 4
           (system_of Tasks.new_TaskExecutor batch_env) batch).
  - vm_compute. lia.
  - reflexivity.
Defined.

(** The scenario of three fetched records of which the second has no XML
    file: all three are picked, the second exhausts its retries, and the
    counter counts the first and the third. *)
Example batch_scenario :
  let run := @Monitor.checkDatabase idle_host 4 (system_of Tasks.new_TaskExecutor batch_env) in
  run.1 = Ok tt /\
  picks (trace run.2) = [1; 2; 3]%Z /\
  processedCount (monitor run.2) = 2%nat /\
  JsMap.keys (processingFiles (executor run.2)) = [1; 3]%Z.
Proof. split_and!; vm_compute; reflexivity. Qed.

(** ** The chave de acesso *)

(** The extraction on three keys: a valid one, one that is too short, and
    one of 44 characters with a letter inside the CNPJ. *)
Example extract_valid :
  Tasks.extractCNPJFromChaveAcesso example_key = Some "12345678000199".
Proof. reflexivity. Qed.

Example extract_short : Tasks.extractCNPJFromChaveAcesso "123" = None.
Proof. reflexivity. Qed.

Example extract_letter :
  Tasks.extractCNPJFromChaveAcesso "3525061234567800019X570010000001231000001234" = None.
Proof. reflexivity. Qed.

(** C6. For a key of 44 characters whose characters 6 to 19 are digits,
    the CNPJ extracted is that substring, and [processRecord] relocates the
    XML file into the folder [path.join(cnpjBasePath, cnpj)] named by it:
    the folder and its [processados] subfolder are created, the file is
    renamed to [path.join(folder, key + ".xml")], and the entry registered
    for the record carries the same CNPJ. *)
Theorem cnpj_names_folder `{Host} (r : CteRecord) (s : Sys) (content : string) :
  let key := numero_cte r in
  let sub := String.substring 6 14 key in
  let folder := path_join [cnpjBasePath (xmlProcessing config); sub] in
  let processed := path_join [folder; processedFolder (xmlProcessing config)] in
  let source := path_join [sourceFolder (xmlProcessing config); key +:+ ".xml"] in
  let target := path_join [folder; key +:+ ".xml"] in
  String.length key = 44%nat ->
  Tasks.all_digits sub = true ->
  Tasks.extractCNPJFromChaveAcesso key = Some sub /\
  (status r = "pendente" ->
   files (env s) !! source = Some content ->
   mkdir_fails (env s) folder = false ->
   mkdir_fails (env s) processed = false ->
   rename_fails (env s) source target = false ->
   exists s',
     Tasks.processRecord r s = (Ok tt, s') /\
     trace s' = trace s ++ [Mkdir folder; Mkdir processed; Renamed source target] /\
     folder ∈ dirs (env s') /\
     files (env s') !! target = Some content /\
     JsMap.get (id r) (processingFiles (executor s')) =
       Some (watch_entry r sub (now (env s)))).
Proof.
  intros key sub folder processed source target.
  subst key sub folder processed source target.
  intros Hlen Hdig.
  pose proof (extractCNPJ_valid _ Hlen Hdig) as Hcnpj.
  split; [exact Hcnpj|].
  intros Hst Hsrc Hmk1 Hmk2 Hrn.
  unfold Tasks.processRecord. rewrite Hcnpj, Hst, String.eqb_refl.
  unfold Tasks.handlePendingDocument, mbind, M_bind.
  rewrite (moveExistingXML_ok r _ s content Hsrc Hmk1 Hmk2 Hrn).
  rewrite waitForProcessedFile_eq, startProcessedFileMonitoring_eq.
  eexists. split; [reflexivity|].
  split_and!.
  - by destruct (processedFileInterval _).
  - destruct (processedFileInterval _); simpl; set_solver.
  - destruct (processedFileInterval _); simpl; apply lookup_insert_eq.
  - destruct (processedFileInterval _); simpl; apply get_set_eq.
Qed.

Lemma cnpj_names_folder_witness :
  Tasks.extractCNPJFromChaveAcesso example_key = Some "12345678000199" /\
  exists s',
    @Tasks.processRecord idle_host example_record
      (system_of Tasks.new_TaskExecutor (outside (Host := arriving_host) quiet_env))
      = (Ok tt, s') /\
    trace s' = [] ++ [Mkdir "./xml/cnpj/12345678000199";
                      Mkdir "./xml/cnpj/12345678000199/processados";
                      Renamed (source_of example_key)
                        ("./xml/cnpj/12345678000199/" +:+ example_key +:+ ".xml")] /\
    "./xml/cnpj/12345678000199" ∈ dirs (env s') /\
    files (env s') !! ("./xml/cnpj/12345678000199/" +:+ example_key +:+ ".xml")
      = Some "<CTe/>" /\
    JsMap.get 7%Z (processingFiles (executor s')) = Some example_entry.
Proof.
  destruct (@cnpj_names_folder idle_host example_record
              (system_of Tasks.new_TaskExecutor (outside (Host := arriving_host) quiet_env))
              "<CTe/>") as [Hsub Hmove].
  - reflexivity.
  - reflexivity.
  - split; [exact Hsub|]. apply Hmove.
    + reflexivity.
    + vm_compute. reflexivity.
    + reflexivity.
    + reflexivity.
    + reflexivity.
Defined.

(** ** The registry and its timer *)

(** C7. In every state the system reaches the registry holds at most one
    entry per record id. Registering a watch keeps it so: for an id already
    registered the keys of the registry are unchanged, so the number of
    entries is, and the entry found under the id is the new one. *)
Theorem one_watch_entry_per_record `{Host} (s : Sys) :
  reachable s ->
  NoDup (JsMap.keys (processingFiles (executor s))) /\
  forall r cnpj,
    let s' := (Tasks.waitForProcessedFile r cnpj s).2 in
    NoDup (JsMap.keys (processingFiles (executor s'))) /\
    (id r ∈ JsMap.keys (processingFiles (executor s)) ->
     JsMap.keys (processingFiles (executor s')) =
       JsMap.keys (processingFiles (executor s)) /\
     JsMap.size (processingFiles (executor s')) =
       JsMap.size (processingFiles (executor s))) /\
    JsMap.get (id r) (processingFiles (executor s')) =
      Some (watch_entry r cnpj (now (env s))).
Proof.
  intros Hreach. pose proof (reachable_registry_wf s Hreach) as Hwf.
  split; [exact Hwf|]. intros r cnpj s'.
  assert (processingFiles (executor s') =
          JsMap.set (id r) (watch_entry r cnpj (now (env s)))
            (processingFiles (executor s))) as Hreg.
  { unfold s'. rewrite waitForProcessedFile_eq, startProcessedFileMonitoring_eq.
    by destruct (processedFileInterval _). }
  rewrite Hreg. split_and!.
  - by apply wf_set.
  - intros Hin. pose proof (keys_set_present (id r)
      (watch_entry r cnpj (now (env s))) _ Hin) as Hkeys.
    split; [exact Hkeys|].
    unfold JsMap.size. unfold JsMap.keys in Hkeys.
    by rewrite <- (length_map fst), Hkeys, length_map.
  - apply get_set_eq.
Qed.

Lemma one_watch_entry_per_record_witness :
  let s := (@run arriving_host (CallExecuteTask 4 example_record) fresh_system).2 in
  NoDup (JsMap.keys (processingFiles (executor s))) /\
  forall r cnpj,
    let s' := (@Tasks.waitForProcessedFile arriving_host r cnpj s).2 in
    NoDup (JsMap.keys (processingFiles (executor s'))) /\
    (id r ∈ JsMap.keys (processingFiles (executor s)) ->
     JsMap.keys (processingFiles (executor s')) =
       JsMap.keys (processingFiles (executor s)) /\
     JsMap.size (processingFiles (executor s')) =
       JsMap.size (processingFiles (executor s))) /\
    JsMap.get (id r) (processingFiles (executor s')) =
      Some (@watch_entry arriving_host r cnpj (now (env s))).
Proof.
  apply (@one_watch_entry_per_record arriving_host
           (@run arriving_host (CallExecuteTask 4 example_record) fresh_system).2).
  exact (@reach_call arriving_host (CallExecuteTask 4 example_record) fresh_system
           (@reach_new arriving_host fresh_system eq_refl)).
Defined.

(** C8. Starting the watch loop when it is not running arms one scan
    timer; starting it again changes nothing: the state is the same and the
    one scan timer is the only one. In any state that holds a timer handle
    the start operation returns at once and leaves the state as it is. *)
Theorem start_monitoring_idempotent `{Host} (s : Sys) :
  processedFileInterval (executor s) = None ->
  scan_timers s = [] ->
  let s1 := (Tasks.startProcessedFileMonitoring s).2 in
  let s2 := (Tasks.startProcessedFileMonitoring s1).2 in
  s2 = s1 /\
  scan_timers s2 =
    [{| handle := nextHandle s; kind := ScanTimer;
        period := checkProcessedInterval (xmlProcessing config) |}] /\
  processedFileInterval (executor s2) = Some (nextHandle s) /\
  (forall s0, is_Some (processedFileInterval (executor s0)) ->
     Tasks.startProcessedFileMonitoring s0 = (Ok tt, s0)).
Proof.
  intros Hidle Hnone s1 s2. unfold s2, s1.
  rewrite !startProcessedFileMonitoring_eq. simpl. rewrite Hidle. simpl.
  split_and!; [reflexivity| |reflexivity|].
  - unfold scan_timers in *. simpl. rewrite filter_app, Hnone. simpl.
    by rewrite filter_cons_True.
  - intros s0 [h Hh]. by rewrite startProcessedFileMonitoring_eq, Hh.
Qed.

Lemma start_monitoring_idempotent_witness :
  let s1 := (@Tasks.startProcessedFileMonitoring idle_host fresh_system).2 in
  let s2 := (@Tasks.startProcessedFileMonitoring idle_host s1).2 in
  s2 = s1 /\
  scan_timers s2 = [{| handle := 0; kind := ScanTimer; period := 30000 |}] /\
  processedFileInterval (executor s2) = Some 0%nat /\
  (forall s0, is_Some (processedFileInterval (executor s0)) ->
     @Tasks.startProcessedFileMonitoring idle_host s0 = (Ok tt, s0)).
Proof.
  apply (@start_monitoring_idempotent idle_host fresh_system).
  - reflexivity.
  - reflexivity.
Defined.

(** Two watch registrations arm one scan timer. *)
Example two_registrations_one_timer :
  let s1 := (@Tasks.waitForProcessedFile idle_host example_record "12345678000199" fresh_system).2 in
  let s2 := (@Tasks.waitForProcessedFile idle_host example_record "12345678000199" s1).2 in
  List.length (timers s2) = 1%nat /\ JsMap.size (processingFiles (executor s2)) = 1%nat.
Proof. split; vm_compute; reflexivity. Qed.

(** * Further properties of the code *)

(** ** Strings *)

Lemma prefix_occurs p s :
  String.prefix p s = true <-> exists post, s = p +:+ post.
Proof.
  revert s. induction p as [|c p IH]; intros s; simpl.
  - split; [intros _; by exists s|by destruct s].
  - destruct s as [|c' s]; simpl.
    + split; [done|intros [post Hpost]; discriminate Hpost].
    + destruct (Ascii.ascii_dec c c') as [->|Hne].
      * rewrite IH. split; intros [post Hpost]; exists post.
        -- by subst.
        -- by injection Hpost.
      * split; [done|]. intros [post Hpost]. injection Hpost as Hc _. congruence.
Qed.

Lemma includes_nil needle : includes needle "" = String.prefix needle "" || false.
Proof. reflexivity. Qed.

Lemma includes_cons needle c hay :
  includes needle (String c hay) =
  String.prefix needle (String c hay) || includes needle hay.
Proof. reflexivity. Qed.

Lemma includes_occurs needle hay :
  includes needle hay = true <-> occurs_in needle hay.
Proof.
  unfold occurs_in. split.
  - induction hay as [|c hay IH].
    + rewrite includes_nil, orb_false_r. intros Hp.
      apply prefix_occurs in Hp as [post Hpost]. by exists "", post.
    + rewrite includes_cons. intros [Hp|Hrest]%orb_true_iff.
      * apply prefix_occurs in Hp as [post Hpost]. by exists "", post.
      * destruct (IH Hrest) as (pre & post & ->). by exists (String c pre), post.
  - intros (pre & post & ->).
    induction pre as [|c pre IH].
    + assert (String.prefix needle (needle +:+ post) = true) as Hp
        by (apply prefix_occurs; by exists post).
      change ("" +:+ needle +:+ post) with (needle +:+ post).
      destruct (needle +:+ post) as [|c rest].
      * by rewrite includes_nil, Hp.
      * by rewrite includes_cons, Hp.
    + change (String c pre +:+ needle +:+ post)
        with (String c (pre +:+ needle +:+ post)).
      rewrite includes_cons, IH. apply orb_true_r.
Qed.

(** X1. [extractCNPJFromChaveAcesso] returns a CNPJ exactly for the keys of
    44 characters whose characters 6 to 19 are digits; what it returns is
    that substring, 14 digits long. Nothing else of the key is looked at. *)
Theorem extractCNPJ_characterised (chaveAcesso c : string) :
  Tasks.extractCNPJFromChaveAcesso chaveAcesso = Some c <->
  String.length chaveAcesso = 44%nat /\
  c = String.substring 6 14 chaveAcesso /\
  Tasks.all_digits c = true /\
  String.length c = 14%nat.
Proof.
  split.
  - unfold Tasks.extractCNPJFromChaveAcesso, Tasks.is_14_digits.
    destruct (String.eqb chaveAcesso ""); [done|]. simpl.
    destruct (Nat.eqb_spec (String.length chaveAcesso) 44) as [Hlen|]; [|done]. simpl.
    destruct (Nat.eqb_spec (String.length (String.substring 6 14 chaveAcesso)) 14)
      as [Hsub|]; [|done]. simpl.
    destruct (Tasks.all_digits (String.substring 6 14 chaveAcesso)) eqn:Hdig; [|done].
    simpl. intros [= <-]. done.
  - intros (Hlen & -> & Hdig & _). by apply extractCNPJ_valid.
Qed.

(** ** The scan, entry by entry *)

(** X2. [checkIfAuthorized] never throws and never changes the state. It
    answers [true] exactly when the file can be read and its content
    contains [<cStat>100</cStat>], [autorizado] or [Autorizado] somewhere:
    a larger word or a negation around the marker does not matter. *)
Theorem checkIfAuthorized_characterised (filePath : string) (s : Sys) :
  (exists b, Tasks.checkIfAuthorized filePath s = (Ok b, s)) /\
  (Tasks.checkIfAuthorized filePath s = (Ok true, s) <->
   read_fails (env s) filePath = false /\
   exists content,
     files (env s) !! filePath = Some content /\
     (occurs_in "<cStat>100</cStat>" content \/
      occurs_in "autorizado" content \/
      occurs_in "Autorizado" content)).
Proof.
  rewrite checkIfAuthorized_eq. split; [by eexists|].
  destruct (read_fails (env s) filePath).
  { split; [done|]. by intros [? _]. }
  destruct (files (env s) !! filePath) as [content|].
  2:{ split; [done|]. by intros (_ & content & ? & _). }
  unfold has_marker. split.
  - intros [= Hm]. split; [done|]. exists content. split; [done|].
    apply orb_true_iff in Hm as [Hm|Hm]; [apply orb_true_iff in Hm as [Hm|Hm]|];
      apply includes_occurs in Hm; tauto.
  - intros (_ & content' & [= <-] & Hocc).
    do 2 f_equal. rewrite !orb_true_iff, !includes_occurs. tauto.
Qed.

Section ScanExtras.
Context `{Host}.

(** X5. An entry whose processed file is absent and whose age is at most
    [processingTimeout] stays in the registry, also at the age of exactly
    [processingTimeout]; the scan issues no store call for it. *)
Theorem waiting_entry_is_kept (s : Sys) (rid : Z) (fi : FileInfo) :
  registry_wf s ->
  JsMap.get rid (processingFiles (executor s)) = Some fi ->
  files (env s) !! processedPath fi = None ->
  (now (env s) - startTime fi <= processingTimeout (xmlProcessing config))%Z ->
  exists s' tr,
    Tasks.checkProcessedFiles s = (Ok tt, s') /\
    trace s' = trace s ++ tr /\
    puts_for rid tr = 0%nat /\
    JsMap.get rid (processingFiles (executor s')) = Some fi.
Proof.
  intros Hwf Hget Hfile Hearly.
  destruct (scan_entry s rid fi Hwf Hget) as (s' & tr & Hrun & _ & Htr & Hputs & Hreg).
  assert (verdict s (rid, fi) = Waiting) as Hv.
  { unfold verdict; simpl. rewrite Hfile.
    rewrite bool_decide_eq_false_2 by (intros [? ?]; done).
    by destruct (Z.ltb_spec (processingTimeout (xmlProcessing config))
                   (now (env s) - startTime fi)); [lia|]. }
  rewrite Hv in Hputs, Hreg. by exists s', tr.
Qed.

(** X6. An entry whose processed file exists without an authorization
    marker stays in the registry whatever its age: the timeout is looked at
    only while the file is absent. *)
Theorem unauthorized_entry_never_expires (s : Sys) (rid : Z) (fi : FileInfo)
    (content : string) :
  registry_wf s ->
  JsMap.get rid (processingFiles (executor s)) = Some fi ->
  files (env s) !! processedPath fi = Some content ->
  has_marker content = false ->
  exists s' tr,
    Tasks.checkProcessedFiles s = (Ok tt, s') /\
    trace s' = trace s ++ tr /\
    puts_for rid tr = 0%nat /\
    JsMap.get rid (processingFiles (executor s')) = Some fi.
Proof.
  intros Hwf Hget Hfile Hmark.
  destruct (scan_entry s rid fi Hwf Hget) as (s' & tr & Hrun & _ & Htr & Hputs & Hreg).
  assert (verdict s (rid, fi) = NotAuthorized) as Hv.
  { unfold verdict, authorized_in; simpl. rewrite Hfile, Hmark.
    rewrite bool_decide_eq_true_2 by eauto.
    by destruct (read_fails (env s) (processedPath fi)). }
  rewrite Hv in Hputs, Hreg. by exists s', tr.
Qed.

Lemma delete_sublist (rid : Z) (m : list (Z * FileInfo)) :
  JsMap.delete rid m `sublist_of` m.
Proof.
  induction m as [|[k v] m IH]; simpl; [done|].
  destruct (decide (k = rid)); [by apply sublist_cons|by apply sublist_skip].
Qed.

Lemma scan_fold_sublist l : forall s,
  processingFiles (executor (foldl scan_step s l)) `sublist_of`
  processingFiles (executor s).
Proof.
  induction l as [|entry l IH]; intros s; simpl; [done|].
  etrans; [apply IH|]. unfold scan_step. rewrite settle_registry.
  destruct (removes _); [apply delete_sublist|done].
Qed.

Lemma scan_fold_rest l : forall s,
  let s' := foldl scan_step s l in
  monitor s' = monitor s /\ timers s' = timers s /\ nextHandle s' = nextHandle s /\
  runningTasks (executor s') = runningTasks (executor s) /\
  retryCounters (executor s') = retryCounters (executor s) /\
  processedFileInterval (executor s') = processedFileInterval (executor s).
Proof.
  induction l as [|entry l IH]; intros s; simpl; [done|].
  destruct (IH (scan_step s entry)) as (-> & -> & -> & -> & -> & ->).
  unfold scan_step, settle.
  by destruct (asks_store _), (removes _).
Qed.

Lemma store_calls_registered s l ev :
  ev ∈ store_calls s l -> exists rid, ev = StorePut rid /\ rid ∈ JsMap.keys l.
Proof.
  unfold store_calls, JsMap.keys.
  induction l as [|entry l IH]; simpl; [by intros ?%elem_of_nil|].
  intros [Hev|Hev]%elem_of_app.
  - destruct (asks_store _); [|by apply elem_of_nil in Hev].
    apply list_elem_of_singleton in Hev as ->.
    exists entry.1. split; [done|]. apply elem_of_cons. by left.
  - destruct (IH Hev) as (rid & -> & Hin). exists rid. split; [done|].
    apply elem_of_cons. by right.
Qed.

(** X8. A scan only removes: the registry after it is a sublist of the
    registry before, the environment, the timers, the running tasks, the
    retry counters and the scheduler are untouched, and the only calls it
    issues are store calls for registered records, at most one per record. *)
Theorem scan_only_removes (s : Sys) :
  exists s' tr,
    Tasks.checkProcessedFiles s = (Ok tt, s') /\
    processingFiles (executor s') `sublist_of` processingFiles (executor s) /\
    env s' = env s /\ monitor s' = monitor s /\ timers s' = timers s /\
    runningTasks (executor s') = runningTasks (executor s) /\
    retryCounters (executor s') = retryCounters (executor s) /\
    trace s' = trace s ++ tr /\
    (forall ev, ev ∈ tr ->
       exists rid, ev = StorePut rid /\ rid ∈ JsMap.keys (processingFiles (executor s))) /\
    (registry_wf s -> forall rid, (puts_for rid tr <= 1)%nat).
Proof.
  rewrite checkProcessedFiles_eq.
  destruct (scan_fold_frame (processingFiles (executor s)) s) as (He & _ & Ht).
  destruct (scan_fold_rest (processingFiles (executor s)) s) as (Hm & Htm & _ & Hrt & Hrc & _).
  eexists _, _. split_and!; [reflexivity|apply scan_fold_sublist|exact He|exact Hm|
    exact Htm|exact Hrt|exact Hrc|exact Ht|apply store_calls_registered|].
  intros Hwf rid.
  destruct (JsMap.get rid (processingFiles (executor s))) as [fi|] eqn:Hget.
  - destruct (scan_entry s rid fi Hwf Hget) as (s' & tr & Hrun & _ & Htr & Hputs & _).
    rewrite checkProcessedFiles_eq in Hrun. injection Hrun as <-.
    rewrite Ht in Htr. apply List.app_inv_head in Htr. subst tr.
    rewrite Hputs. destruct (asks_store _); lia.
  - apply get_None_keys in Hget. rewrite store_calls_other by exact Hget. lia.
Qed.
End ScanExtras.

Lemma waiting_entry_is_kept_witness :
  exists s' tr,
    @Tasks.checkProcessedFiles idle_host
      (system_of (watching None) (empty_env_at 601000)) = (Ok tt, s') /\
    trace s' = [] ++ tr /\
    puts_for 7 tr = 0%nat /\
    JsMap.get 7%Z (processingFiles (executor s')) = Some example_entry.
Proof.
  apply (@waiting_entry_is_kept idle_host
           (system_of (watching None) (empty_env_at 601000)) 7%Z example_entry).
  - unfold registry_wf, JsMap.wf. apply (bool_decide_unpack _). vm_compute. exact I.
  - reflexivity.
  - reflexivity.
  - vm_compute. discriminate.
Defined.

Lemma unauthorized_entry_never_expires_witness :
  exists s' tr,
    @Tasks.checkProcessedFiles idle_host
      (system_of (watching (Some example_client)) rejected_env) = (Ok tt, s') /\
    trace s' = [] ++ tr /\
    puts_for 7 tr = 0%nat /\
    JsMap.get 7%Z (processingFiles (executor s')) = Some example_entry.
Proof.
  apply (@unauthorized_entry_never_expires idle_host
           (system_of (watching (Some example_client)) rejected_env)
           7%Z example_entry "<cStat>204</cStat>").
  - unfold registry_wf, JsMap.wf. apply (bool_decide_unpack _). vm_compute. exact I.
  - reflexivity.
  - vm_compute. reflexivity.
  - vm_compute. reflexivity.
Defined.

Section ExecutorExtras.
Context `{Host}.

Lemma store_calls_unwired s l :
  apiClient (executor s) = None -> store_calls s l = [].
Proof.
  intros Hnone. unfold store_calls.
  induction l as [|entry l IH]; simpl; [done|]. rewrite IH, app_nil_r.
  unfold verdict. rewrite Hnone. by repeat case_match.
Qed.

(** X7. No method assigns the executor's [apiClient]: in every state the
    system reaches from the constructor it is undefined. A scan in such a
    state issues no call at all, and an entry whose processed file exists
    is still registered after it, authorized or not. *)
Theorem scan_never_reaches_store (s : Sys) :
  reachable s ->
  apiClient (executor s) = None /\
  exists s',
    Tasks.checkProcessedFiles s = (Ok tt, s') /\
    trace s' = trace s /\
    forall rid fi,
      JsMap.get rid (processingFiles (executor s)) = Some fi ->
      is_Some (files (env s) !! processedPath fi) ->
      JsMap.get rid (processingFiles (executor s')) = Some fi.
Proof.
  intros Hreach.
  pose proof (reachable_unwired s Hreach) as Hnone.
  pose proof (reachable_registry_wf s Hreach) as Hwf.
  split; [exact Hnone|].
  rewrite checkProcessedFiles_eq. eexists. split; [reflexivity|]. split.
  - destruct (scan_fold_frame (processingFiles (executor s)) s) as (_ & _ & ->).
    by rewrite store_calls_unwired, app_nil_r.
  - intros rid fi Hget Hfile.
    rewrite (scan_fold_get_entry _ s rid fi Hwf (get_Some_elem_of _ _ _ Hget) Hget).
    unfold verdict; simpl. rewrite Hnone, bool_decide_eq_true_2 by done.
    by destruct (authorized_in _ _).
Qed.

(** X4. An attempt that fails moves nothing: when [processRecord] throws,
    the files are where they were, the executor's fields are unchanged (no
    watch is registered) and no timer is armed. What it throws is the
    missing CNPJ, the missing XML file, or the failure of a file system
    call. *)
Theorem failed_attempt_moves_nothing (r : CteRecord) (s s' : Sys) (e : Error) :
  Tasks.processRecord r s = (Throw e, s') ->
  files (env s') = files (env s) /\
  executor s' = executor s /\
  timers s' = timers s /\
  (e = CnpjNotExtracted (numero_cte r) \/
   (exists path, e = XmlNotFound path) \/
   (exists path, e = FsFault path)).
Proof.
  unfold Tasks.processRecord.
  destruct (Tasks.extractCNPJFromChaveAcesso (numero_cte r)) as [cnpj|].
  2:{ intros [= <- <-]. split_and!; try done. by left. }
  destruct (String.eqb (status r) "pendente"); [|done].
  unfold Tasks.handlePendingDocument, mbind, M_bind.
  destruct (Tasks.moveExistingXMLToCNPJFolder r cnpj s) as [o1 s1] eqn:Hmove.
  destruct o1 as [target|e1|].
  - destruct (waitForProcessedFile_frame r cnpj s1) as (s2 & -> & _). done.
  - intros [= <- <-]. revert Hmove.
    unfold Tasks.moveExistingXMLToCNPJFolder, try_catch, mbind, M_bind.
    rewrite fileExists_eq.
    destruct (bool_decide _) eqn:Hex; simpl.
    2:{ intros [= <- <-]. split_and!; try done. right; left. by eexists. }
    apply bool_decide_eq_true_1 in Hex as [content Hcontent].
    unfold fs_mkdir, fs_rename. run_m.
    intros Hrun.
    repeat case_match; simplify_eq; simpl.
    all: try (exfalso; simpl in *; congruence).
    all: split_and!; try done.
    all: right; right; by eexists.
  - done.
Qed.

(** X3. A record with a well-formed key whose status is not [pendente] is
    no work and no error: [processRecord] leaves the state as it is,
    [executeTask] reports success at the first attempt, and the scheduler
    then asks the store to mark the record and counts it as processed. *)
Theorem other_status_counts_as_processed (fuel : nat) (r : CteRecord) (s : Sys) :
  String.length (numero_cte r) = 44%nat ->
  Tasks.all_digits (String.substring 6 14 (numero_cte r)) = true ->
  status r ≠ "pendente" ->
  Tasks.processRecord r s = (Ok tt, s) /\
  exists s',
    Monitor.processRecord (S fuel) r s = (Ok tt, s') /\
    trace s' = trace s ++ [RecordPicked (id r); TaskStarted (id r); StorePut (id r)] /\
    env s' = env s /\
    processingFiles (executor s') = processingFiles (executor s) /\
    retryCounters (executor s') = retryCounters (executor s) /\
    timers s' = timers s /\
    processedCount (monitor s') =
      (processedCount (monitor s) + (if put_fails (env s) (id r) then 0 else 1))%nat.
Proof.
  intros Hlen Hdig Hst.
  assert (forall s0, Tasks.processRecord r s0 = (Ok tt, s0)) as Hnoop.
  { intros s0. unfold Tasks.processRecord.
    rewrite (extractCNPJ_valid _ Hlen Hdig).
    by apply String.eqb_neq in Hst as ->. }
  split; [apply Hnoop|].
  rewrite processRecord_eq, executeTask_S, Hnoop. simpl.
  destruct (put_fails (env s) (id r)); eexists; split_and!; try reflexivity;
    simpl; rewrite <- ?app_assoc; try reflexivity; lia.
Qed.

(** The shape of any run that ends. *)
Lemma run_shape fuel r : forall s o s',
  Tasks.executeTask fuel r s = (o, s') ->
  o ≠ OutOfFuel ->
  exists res tr,
    o = Ok res /\
    recordId res = id r /\
    trace s' = trace s ++ tr /\
    attempts tr = S (delays tr) /\
    (delays tr <= retryAttempts (tasks config) - retry_count r s)%nat /\
    Forall (fun ev => forall ms, ev = Delayed ms -> ms = retryDelay (tasks config)) tr /\
    (if success res
     then retry_count r s' = (retry_count r s + delays tr)%nat
     else retry_count r s' = 0%nat /\
          delays tr = (retryAttempts (tasks config) - retry_count r s)%nat).
Proof.
  induction fuel as [|fuel IH]; intros s o s'.
  - by intros [= <- <-].
  - rewrite executeTask_S.
    destruct (Tasks.processRecord r (begin_task r s)) as [o2 s2] eqn:Hrun.
    apply processRecord_frame in Hrun
      as (Hfuel & Hrc & _ & _ & _ & (tr & Htr & Hfs) & _).
    assert (retry_count r (end_task r (now (env s)) s2) = retry_count r s) as Hcount.
    { unfold retry_count; simpl. by rewrite Hrc. }
    assert (attempts tr = 0%nat /\ delays tr = 0%nat /\
            Forall (fun ev => forall ms, ev = Delayed ms -> ms = retryDelay (tasks config)) tr)
      as (Hatt & Hdel & Hall).
    { clear -Hfs. induction Hfs as [|ev tr Hev _ (IH1 & IH2 & IH3)]; [done|].
      destruct ev; try (by destruct Hev);
        (split_and!; [exact IH1|exact IH2|constructor; [done|exact IH3]]). }
    destruct o2 as [[]|e|]; [| |done].
    + intros [= <- <-] _.
      exists {| success := true; recordId := id r; error := None |},
             (TaskStarted (id r) :: tr).
      split_and!; try done.
      * simpl. rewrite Htr. simpl. by rewrite <- app_assoc.
      * unfold attempts, delays in *. simpl. lia.
      * unfold delays in *. simpl. lia.
      * by constructor.
      * simpl. rewrite Hcount. unfold delays in *. simpl. lia.
    + rewrite handleTaskFailure_eq, Hcount.
      destruct (Nat.ltb_spec (retry_count r s) (retryAttempts (tasks config))).
      * intros Hrec Hnf.
        destruct (IH _ _ _ Hrec Hnf)
          as (res & tr' & -> & Hid & Htr' & Hatt' & Hdel' & Hall' & Hend).
        assert (retry_count r (sleep (retryDelay (tasks config))
                  (bump r (end_task r (now (env s)) s2))) = S (retry_count r s)) as Hc'.
        { change (retry_count r (sleep (retryDelay (tasks config))
                    (bump r (end_task r (now (env s)) s2))))
            with (retry_count r (bump r (end_task r (now (env s)) s2))).
          rewrite retry_count_bump, Hcount. lia. }
        rewrite Hc' in Hdel', Hend.
        exists res, (TaskStarted (id r) :: tr ++ Delayed (retryDelay (tasks config)) :: tr').
        assert (attempts (tr ++ Delayed (retryDelay (tasks config)) :: tr') = attempts tr' /\
                delays (tr ++ Delayed (retryDelay (tasks config)) :: tr') = S (delays tr'))
          as [Ha Hd].
        { unfold attempts, delays in *. rewrite !List.filter_app, !length_app. simpl. lia. }
        split_and!; try done.
        -- rewrite Htr'. simpl. rewrite Htr. simpl. by rewrite <- !app_assoc.
        -- change (attempts (TaskStarted (id r) :: tr ++ Delayed (retryDelay (tasks config)) :: tr'))
             with (S (attempts (tr ++ Delayed (retryDelay (tasks config)) :: tr'))).
           change (delays (TaskStarted (id r) :: tr ++ Delayed (retryDelay (tasks config)) :: tr'))
             with (delays (tr ++ Delayed (retryDelay (tasks config)) :: tr')).
           lia.
        -- change (delays (TaskStarted (id r) :: tr ++ Delayed (retryDelay (tasks config)) :: tr'))
             with (delays (tr ++ Delayed (retryDelay (tasks config)) :: tr')).
           lia.
        -- constructor; [done|]. apply Forall_app. split; [done|].
           constructor; [by intros ms [= <-]|done].
        -- change (delays (TaskStarted (id r) :: tr ++ Delayed (retryDelay (tasks config)) :: tr'))
             with (delays (tr ++ Delayed (retryDelay (tasks config)) :: tr')).
           destruct (success res); [lia|]. destruct Hend. split; lia.
      * intros [= <- <-] _.
        exists {| success := false; recordId := id r; error := Some e |},
               (TaskStarted (id r) :: tr).
        split_and!; try done.
        -- simpl. rewrite Htr. simpl. by rewrite <- app_assoc.
        -- unfold attempts, delays in *. simpl. lia.
        -- unfold delays in *. simpl. lia.
        -- by constructor.
        -- simpl. split; [apply retry_count_forget|]. unfold delays in *. simpl. lia.
Qed.

(** X9. Whatever the environment does, a run of [executeTask] ends with a
    result for the record after one attempt more than it waited, it waits
    at most once per retry the counter still allows, and every wait lasts
    [retryDelay]. After success the retry counter holds its old value plus
    the number of failed attempts of the run; after failure it is gone. *)
Theorem executeTask_run_is_bounded (fuel : nat) (r : CteRecord) (s : Sys) :
  (retryAttempts (tasks config) < fuel)%nat ->
  exists res s' tr,
    Tasks.executeTask fuel r s = (Ok res, s') /\
    recordId res = id r /\
    trace s' = trace s ++ tr /\
    attempts tr = S (delays tr) /\
    (delays tr <= retryAttempts (tasks config) - retry_count r s)%nat /\
    Forall (fun ev => forall ms, ev = Delayed ms -> ms = retryDelay (tasks config)) tr /\
    (if success res
     then retry_count r s' = (retry_count r s + delays tr)%nat
     else retry_count r s' = 0%nat /\
          delays tr = (retryAttempts (tasks config) - retry_count r s)%nat).
Proof.
  intros Hfuel.
  destruct (Tasks.executeTask fuel r s) as [o s'] eqn:Hrun.
  pose proof (executeTask_total fuel r s ltac:(lia)) as Hnf. rewrite Hrun in Hnf.
  destruct (run_shape fuel r s o s' Hrun Hnf) as (res & tr & -> & Hrest).
  by exists res, s', tr.
Qed.

(** X10. [executeTask] leaves no entry of its own in [runningTasks]: the
    map after a run, however the run ends, is contained in the map before
    it, so it is empty if it was empty. *)
Theorem executeTask_leaves_no_running_task (fuel : nat) (r : CteRecord) (s : Sys) :
  runningTasks (executor (Tasks.executeTask fuel r s).2) ⊆ runningTasks (executor s) /\
  (runningTasks (executor s) = ∅ ->
   runningTasks (executor (Tasks.executeTask fuel r s).2) = ∅).
Proof.
  assert (runningTasks (executor (Tasks.executeTask fuel r s).2)
          ⊆ runningTasks (executor s)) as Hsub.
  { revert s. induction fuel as [|fuel IH]; intros s; [done|].
    rewrite executeTask_S.
    destruct (Tasks.processRecord r (begin_task r s)) as [o2 s2] eqn:Hrun.
    apply processRecord_frame in Hrun as (Hfuel & _ & _ & Hrt & _).
    assert (runningTasks (executor (end_task r (now (env s)) s2))
            ⊆ runningTasks (executor s)) as Hend.
    { simpl. rewrite Hrt. simpl. rewrite delete_insert_eq. apply delete_subseteq. }
    destruct o2 as [[]|e|]; [exact Hend| |done].
    rewrite handleTaskFailure_eq.
    destruct (_ <? _)%nat; [|exact Hend].
    etrans; [apply IH|]. exact Hend. }
  split; [exact Hsub|].
  intros Hempty. rewrite Hempty in Hsub.
  apply map_empty. intros k. eapply lookup_weaken_None; [apply lookup_empty|exact Hsub].
Qed.
End ExecutorExtras.

Lemma scan_never_reaches_store_witness :
  let s := (@run arriving_host (CallExecuteTask 4 example_record) fresh_system).2 in
  apiClient (executor s) = None /\
  exists s',
    @Tasks.checkProcessedFiles arriving_host s = (Ok tt, s') /\
    trace s' = trace s /\
    forall rid fi,
      JsMap.get rid (processingFiles (executor s)) = Some fi ->
      is_Some (files (env s) !! processedPath fi) ->
      JsMap.get rid (processingFiles (executor s')) = Some fi.
Proof.
  apply (@scan_never_reaches_store arriving_host
           (@run arriving_host (CallExecuteTask 4 example_record) fresh_system).2).
  exact (@reach_call arriving_host (CallExecuteTask 4 example_record) fresh_system
           (@reach_new arriving_host fresh_system eq_refl)).
Defined.

Lemma failed_attempt_moves_nothing_witness :
  files (env fresh_system) = files (env fresh_system) /\
  executor fresh_system = executor fresh_system /\
  timers fresh_system = timers fresh_system /\
  (CnpjNotExtracted "123" = CnpjNotExtracted (numero_cte malformed_record) \/
   (exists path, CnpjNotExtracted "123" = XmlNotFound path) \/
   (exists path, CnpjNotExtracted "123" = FsFault path)).
Proof.
  apply (@failed_attempt_moves_nothing idle_host malformed_record
           fresh_system fresh_system (CnpjNotExtracted "123")).
  reflexivity.
Defined.

Lemma other_status_counts_as_processed_witness :
  @Tasks.processRecord idle_host cancelled_record fresh_system = (Ok tt, fresh_system) /\
  exists s',
    @Monitor.processRecord idle_host 1 cancelled_record fresh_system = (Ok tt, s') /\
    trace s' = [] ++ [RecordPicked 9; TaskStarted 9; StorePut 9] /\
    env s' = quiet_env /\
    processingFiles (executor s') = [] /\
    retryCounters (executor s') = None /\
    timers s' = [] /\
    processedCount (monitor s') = (0 + 1)%nat.
Proof.
  apply (@other_status_counts_as_processed idle_host 0 cancelled_record fresh_system).
  - reflexivity.
  - reflexivity.
  - discriminate.
Defined.

Lemma executeTask_run_is_bounded_witness :
  exists res s' tr,
    @Tasks.executeTask arriving_host 4 example_record fresh_system = (Ok res, s') /\
    recordId res = 7%Z /\
    trace s' = [] ++ tr /\
    attempts tr = S (delays tr) /\
    (delays tr <= 3 - retry_count example_record fresh_system)%nat /\
    Forall (fun ev => forall ms, ev = Delayed ms -> ms = 2000%Z) tr /\
    (if success res
     then retry_count example_record s' =
          (retry_count example_record fresh_system + delays tr)%nat
     else retry_count example_record s' = 0%nat /\
          delays tr = (3 - retry_count example_record fresh_system)%nat).
Proof.
  apply (@executeTask_run_is_bounded arriving_host 4 example_record fresh_system).
  vm_compute. lia.
Defined.

(** ** Stopping the watch loop, cleaning up, setting up *)

Section LifecycleExtras.
Context `{Host}.

Lemma stopProcessedFileMonitoring_eq s :
  Tasks.stopProcessedFileMonitoring s =
  (Ok tt, match processedFileInterval (executor s) with
          | Some h =>
              with_executor (with_processedFileInterval None)
                (with_timers (filter (fun t => handle t ≠ h)) s)
          | None => s
          end).
Proof.
  unfold Tasks.stopProcessedFileMonitoring, clearInterval. run_m.
  destruct (processedFileInterval (executor s)); reflexivity.
Qed.

Lemma filter_fresh (h : nat) (ts : list Timer) :
  Forall (fun t => (handle t < h)%nat) ts ->
  filter (fun t => handle t ≠ h) ts = ts.
Proof.
  induction 1 as [|t ts Ht _ IH]; [done|].
  rewrite filter_cons_True by lia. by rewrite IH.
Qed.

(** X11. Stopping the watch loop when it is not running does nothing.
    Stopping it after a start removes exactly the timer that start armed:
    the timers are those from before the start and the handle is cleared.
    A later start arms a timer under a handle never used before. *)
Theorem stop_undoes_start (s : Sys) :
  timers_fresh s ->
  processedFileInterval (executor s) = None ->
  let s1 := (Tasks.startProcessedFileMonitoring s).2 in
  let s2 := (Tasks.stopProcessedFileMonitoring s1).2 in
  let s3 := (Tasks.startProcessedFileMonitoring s2).2 in
  Tasks.stopProcessedFileMonitoring s = (Ok tt, s) /\
  timers s2 = timers s /\
  processedFileInterval (executor s2) = None /\
  processedFileInterval (executor s3) = Some (S (nextHandle s)) /\
  timers_fresh s3.
Proof.
  intros [Hnd Hfresh] Hidle s1 s2 s3. unfold s3, s2, s1.
  rewrite !startProcessedFileMonitoring_eq, !stopProcessedFileMonitoring_eq.
  simpl. rewrite Hidle. simpl.
  assert (filter (fun t => handle t ≠ nextHandle s)
            (timers s ++ [{| handle := nextHandle s; kind := ScanTimer;
                             period := checkProcessedInterval (xmlProcessing config) |}])
          = timers s) as Hfilter.
  { rewrite filter_app, filter_fresh by exact Hfresh.
    rewrite filter_cons_False by (simpl; lia). by rewrite app_nil_r. }
  split_and!; [reflexivity|exact Hfilter|
    reflexivity|reflexivity|].
  unfold timers_fresh. simpl. rewrite Hfilter. split.
  - rewrite map_app. simpl. apply NoDup_app. split_and!; [exact Hnd| |apply NoDup_singleton].
    intros h Hin ->%list_elem_of_singleton.
    apply list_elem_of_fmap in Hin as (t & Hh & Hin).
    rewrite Forall_forall in Hfresh. specialize (Hfresh t Hin). lia.
  - apply Forall_app. split.
    + eapply Forall_impl; [exact Hfresh|]. intros t Ht. simpl in *. lia.
    + constructor; [simpl; lia|constructor].
Qed.

(** X12. [cleanup] empties the registry and the running tasks and stops
    the watch loop; it keeps the retry counters, the client reference, the
    files and the trace. A scan after it does nothing. *)
Theorem cleanup_empties_registry (s : Sys) :
  exists s',
    Tasks.cleanup s = (Ok tt, s') /\
    processingFiles (executor s') = [] /\
    runningTasks (executor s') = ∅ /\
    processedFileInterval (executor s') = None /\
    retryCounters (executor s') = retryCounters (executor s) /\
    apiClient (executor s') = apiClient (executor s) /\
    env s' = env s /\ trace s' = trace s /\ monitor s' = monitor s /\
    Tasks.checkProcessedFiles s' = (Ok tt, s').
Proof.
  unfold Tasks.cleanup, mbind, M_bind.
  rewrite stopProcessedFileMonitoring_eq. unfold modify.
  eexists. split; [reflexivity|].
  destruct (processedFileInterval (executor s)) eqn:Hi; simpl; rewrite ?Hi;
    split_and!; reflexivity.
Qed.

(** X13. [setupDirectories] never throws and touches neither files nor the
    executor. When creating the source folder fails it gives up there: the
    CNPJ base folder is not even attempted. When no creation fails both
    folders exist afterwards. *)
Theorem setupDirectories_swallows_failures (s : Sys) :
  let source := sourceFolder (xmlProcessing config) in
  let base := cnpjBasePath (xmlProcessing config) in
  let s' := (Tasks.setupDirectories s).2 in
  (Tasks.setupDirectories s).1 = Ok tt /\
  files (env s') = files (env s) /\
  executor s' = executor s /\
  (mkdir_fails (env s) source = true ->
   trace s' = trace s ++ [Mkdir source] /\ dirs (env s') = dirs (env s)) /\
  (mkdir_fails (env s) source = false -> mkdir_fails (env s) base = false ->
   trace s' = trace s ++ [Mkdir source; Mkdir base] /\
   source ∈ dirs (env s') /\ base ∈ dirs (env s')).
Proof.
  intros source base s'. unfold s', Tasks.setupDirectories, fs_mkdir.
  unfold try_catch, for_each, mbind, M_bind, mret, M_ret, gets, emit, modify, throw.
  simpl. fold source. fold base.
  destruct (mkdir_fails (env s) source) eqn:H1; simpl.
  - split_and!; try done.
  - destruct (mkdir_fails (env s) base) eqn:H2; simpl.
    + split_and!; try done.
    + split_and!; try done. intros _ _. rewrite <- app_assoc.
      split_and!; [done|set_solver|set_solver].
Qed.

(** X15. [getProcessingStats] changes nothing and lists the registry in
    order: one file per entry, [filesWaiting] of them, each with the time
    since its registration. In a reachable state no record is listed
    twice. *)
Theorem getProcessingStats_lists_registry (s : Sys) :
  exists stats,
    TaskViews.getProcessingStats s = (Ok stats, s) /\
    TaskViews.filesWaiting stats = List.length (TaskViews.stats_files stats) /\
    map TaskViews.wf_recordId (TaskViews.stats_files stats) =
      JsMap.keys (processingFiles (executor s)) /\
    Forall2 (fun file entry =>
               TaskViews.waitingTime file = (now (env s) - startTime entry.2)%Z)
      (TaskViews.stats_files stats) (processingFiles (executor s)) /\
    (reachable s -> NoDup (map TaskViews.wf_recordId (TaskViews.stats_files stats))).
Proof.
  eexists. split; [reflexivity|]. simpl. split_and!.
  - unfold JsMap.size. by rewrite length_map.
  - unfold JsMap.keys. rewrite map_map. reflexivity.
  - induction (processingFiles (executor s)) as [|entry l IH]; simpl; constructor; done.
  - intros Hreach. rewrite map_map. apply (reachable_registry_wf s Hreach).
Qed.
End LifecycleExtras.

Lemma stop_undoes_start_witness :
  let s1 := (@Tasks.startProcessedFileMonitoring idle_host fresh_system).2 in
  let s2 := (Tasks.stopProcessedFileMonitoring s1).2 in
  let s3 := (@Tasks.startProcessedFileMonitoring idle_host s2).2 in
  Tasks.stopProcessedFileMonitoring fresh_system = (Ok tt, fresh_system) /\
  timers s2 = [] /\
  processedFileInterval (executor s2) = None /\
  processedFileInterval (executor s3) = Some 1%nat /\
  timers_fresh s3.
Proof.
  apply (@stop_undoes_start idle_host fresh_system).
  - split; [apply NoDup_nil_2|apply Forall_nil_2].
  - reflexivity.
Defined.

(** ** The scheduler: ticks, start and stop *)

Section SchedulerExtras.
Context `{Host}.

Lemma checkDatabase_idle fuel s :
  pending (env s) = None \/ pending (env s) = Some [] ->
  Monitor.checkDatabase fuel s = (Ok tt, stamped s).
Proof.
  unfold Monitor.checkDatabase, getRecordsToProcess.
  unfold try_catch, mbind, M_bind, gets, modify, mret, M_ret, throw; simpl.
  by intros [-> | ->].
Qed.


Lemma processRecord_relocates (r : CteRecord) (s : Sys) (content : string) :
  let key := numero_cte r in
  let sub := String.substring 6 14 key in
  let folder := path_join [cnpjBasePath (xmlProcessing config); sub] in
  let processed := path_join [folder; processedFolder (xmlProcessing config)] in
  let source := path_join [sourceFolder (xmlProcessing config); key +:+ ".xml"] in
  let target := path_join [folder; key +:+ ".xml"] in
  String.length key = 44%nat ->
  Tasks.all_digits sub = true ->
  status r = "pendente" ->
  files (env s) !! source = Some content ->
  mkdir_fails (env s) folder = false ->
  mkdir_fails (env s) processed = false ->
  rename_fails (env s) source target = false ->
  exists s',
    Tasks.processRecord r s = (Ok tt, s') /\
    trace s' = trace s ++ [Mkdir folder; Mkdir processed; Renamed source target] /\
    JsMap.get (id r) (processingFiles (executor s')) =
      Some (watch_entry r sub (now (env s))) /\
    monitor s' = monitor s /\
    put_fails (env s') = put_fails (env s).
Proof.
  intros key sub folder processed source target.
  subst key sub folder processed source target.
  intros Hlen Hdig Hst Hsrc Hmk1 Hmk2 Hrn.
  unfold Tasks.processRecord.
  rewrite (extractCNPJ_valid _ Hlen Hdig), Hst, String.eqb_refl.
  unfold Tasks.handlePendingDocument, mbind, M_bind.
  rewrite (moveExistingXML_ok r _ s content Hsrc Hmk1 Hmk2 Hrn).
  rewrite waitForProcessedFile_eq, startProcessedFileMonitoring_eq.
  eexists. split; [reflexivity|].
  split_and!.
  - by destruct (processedFileInterval _).
  - destruct (processedFileInterval _); simpl; apply get_set_eq.
  - by destruct (processedFileInterval _).
  - by destruct (processedFileInterval _).
Qed.

(** X20. The scheduler does not wait for the watch loop: when the XML file
    of a pending record is relocated, the same step of the tick already asks
    the store to mark the record and counts it, while the record's watch
    entry has only just been registered. *)
Theorem scheduler_marks_on_relocation (fuel : nat) (r : CteRecord) (s : Sys)
    (content : string) :
  let key := numero_cte r in
  let sub := String.substring 6 14 key in
  let folder := path_join [cnpjBasePath (xmlProcessing config); sub] in
  let processed := path_join [folder; processedFolder (xmlProcessing config)] in
  let source := path_join [sourceFolder (xmlProcessing config); key +:+ ".xml"] in
  let target := path_join [folder; key +:+ ".xml"] in
  String.length key = 44%nat ->
  Tasks.all_digits sub = true ->
  status r = "pendente" ->
  files (env s) !! source = Some content ->
  mkdir_fails (env s) folder = false ->
  mkdir_fails (env s) processed = false ->
  rename_fails (env s) source target = false ->
  exists s',
    Monitor.processRecord (S fuel) r s = (Ok tt, s') /\
    trace s' = trace s ++
      [RecordPicked (id r); TaskStarted (id r); Mkdir folder; Mkdir processed;
       Renamed source target; StorePut (id r)] /\
    JsMap.get (id r) (processingFiles (executor s')) =
      Some (watch_entry r sub (now (env s))) /\
    processedCount (monitor s') =
      (processedCount (monitor s) + (if put_fails (env s) (id r) then 0 else 1))%nat.
Proof.
  intros key sub folder processed source target Hlen Hdig Hst Hsrc Hmk1 Hmk2 Hrn.
  destruct (processRecord_relocates r (begin_task r (picked r s)) content
              Hlen Hdig Hst Hsrc Hmk1 Hmk2 Hrn)
    as (s1 & Hrun & Htr & Hget & Hmon & Hput).
  fold key sub folder processed source target in Htr, Hget.
  simpl in Htr, Hget, Hmon, Hput.
  rewrite processRecord_eq, executeTask_S, Hrun. simpl. rewrite Hput.
  destruct (put_fails (env s) (id r)); eexists; (split; [reflexivity|]); simpl;
    rewrite Htr, Hmon, <- !app_assoc; simpl; (split_and!; [reflexivity|exact Hget|lia]).
Qed.

Lemma foldl_process_count fuel records : forall s,
  (retryAttempts (tasks config) < fuel)%nat ->
  (processedCount (monitor s) <=
   processedCount (monitor (foldl (process_step fuel) s records)) <=
   processedCount (monitor s) + List.length records)%nat.
Proof.
  induction records as [|r records IH]; intros s Hfuel; simpl; [lia|].
  destruct (processRecord_spec fuel r s Hfuel) as (res & s1 & _ & _ & Hcount & _).
  specialize (IH (process_step fuel s r) Hfuel).
  destruct (success res && negb (put_fails (env s1) (id r))); lia.
Qed.

(** X21. A tick never lowers [processedCount] and raises it by at most
    the number of records it fetched. *)
Theorem tick_counts_at_most_batch (fuel : nat) (s : Sys) (records : list CteRecord) :
  (retryAttempts (tasks config) < fuel)%nat ->
  pending (env s) = Some records ->
  (processedCount (monitor s) <=
   processedCount (monitor (Monitor.checkDatabase fuel s).2) <=
   processedCount (monitor s) + List.length records)%nat.
Proof.
  intros Hfuel Hpend. rewrite (checkDatabase_eq fuel s records Hfuel Hpend). simpl.
  apply (foldl_process_count fuel records (stamped s) Hfuel).
Qed.

Lemma checkDatabase_ok fuel s :
  (retryAttempts (tasks config) < fuel)%nat ->
  (Monitor.checkDatabase fuel s).1 = Ok tt.
Proof.
  intros Hfuel. destruct (pending (env s)) as [records|] eqn:Hpend.
  - by rewrite (checkDatabase_eq fuel s records Hfuel Hpend).
  - rewrite checkDatabase_idle by auto. done.
Qed.

Lemma tick_frame_refl s : tick_frame s s.
Proof.
  exists []. rewrite app_nil_r. split_and!; try done; constructor.
Qed.

Lemma tick_frame_setInterval s0 ms :
  preserves (tick_frame s0) (setInterval ScanTimer ms).
Proof.
  intros s (extra & Ht & Hnd & Hall & Hle & Hrun & Hmi).
  unfold setInterval, mbind, M_bind, gets, modify, mret, M_ret. simpl.
  exists (extra ++ [{| handle := nextHandle s; kind := ScanTimer; period := ms |}]).
  simpl. split_and!; try done.
  - by rewrite Ht, app_assoc.
  - rewrite map_app. simpl. apply NoDup_app. split_and!; [exact Hnd| |apply NoDup_singleton].
    intros h Hin ->%list_elem_of_singleton.
    apply list_elem_of_fmap in Hin as (t & Hh & Hin).
    rewrite Forall_forall in Hall. destruct (Hall t Hin). lia.
  - apply Forall_app. split.
    + eapply Forall_impl; [exact Hall|]. simpl. intros t [? ?]. split; [done|lia].
    + constructor; [simpl; split; [done|lia]|constructor].
  - lia.
Qed.

Local Hint Resolve tick_frame_setInterval : preserves.

Ltac keep_frame := intros ? Hs; exact Hs.

Lemma tick_frame_executeTask s0 fuel r :
  preserves (tick_frame s0) (Tasks.executeTask fuel r).
Proof.
  induction fuel as [|fuel IH]; simpl; [apply preserves_out_of_fuel|].
  walk keep_frame. all: try apply IH.
Qed.

Lemma tick_frame_checkDatabase s0 fuel :
  preserves (tick_frame s0) (Monitor.checkDatabase fuel).
Proof. walk keep_frame. all: try apply tick_frame_executeTask. Qed.

Lemma tick_frame_fresh s0 s :
  timers_fresh s0 -> tick_frame s0 s -> timers_fresh s.
Proof.
  intros [Hnd Hfresh] (extra & Ht & Hnd' & Hall & Hle & _).
  unfold timers_fresh. rewrite Ht. split.
  - rewrite map_app. apply NoDup_app. split_and!; [exact Hnd| |exact Hnd'].
    intros h Hin Hin'.
    apply list_elem_of_fmap in Hin as (t & -> & Hin).
    apply list_elem_of_fmap in Hin' as (t' & Hh & Hin').
    rewrite Forall_forall in Hfresh, Hall.
    specialize (Hfresh t Hin). destruct (Hall t' Hin'). lia.
  - apply Forall_app. split.
    + eapply Forall_impl; [exact Hfresh|]. simpl. intros t ?. lia.
    + eapply Forall_impl; [exact Hall|]. simpl. intros t [_ ?]. lia.
Qed.

Lemma monitor_timers_frame s0 s :
  tick_frame s0 s -> monitor_timers s = monitor_timers s0.
Proof.
  intros (extra & Ht & _ & Hall & _). unfold monitor_timers. rewrite Ht, filter_app.
  assert (filter (fun t => kind t = MonitorTimer) extra = []) as ->.
  { clear Ht. induction Hall as [|t extra [Hk _] _ IH]; [done|].
    rewrite filter_cons_False by (rewrite Hk; done). exact IH. }
  by rewrite app_nil_r.
Qed.

Lemma checkDatabase_frame fuel s :
  tick_frame s (Monitor.checkDatabase fuel s).2 /\
  monitor_timers (Monitor.checkDatabase fuel s).2 = monitor_timers s.
Proof.
  assert (tick_frame s (Monitor.checkDatabase fuel s).2) as Hframe
    by (apply tick_frame_checkDatabase, tick_frame_refl).
  split; [exact Hframe|by apply monitor_timers_frame].
Qed.

(** X14. A tick leaves the scheduler's own timer and running flag alone:
    all it can do to the timers is arm scan timers under new handles. *)
Theorem tick_keeps_scheduler_timer (fuel : nat) (s : Sys) :
  let s' := (Monitor.checkDatabase fuel s).2 in
  tick_frame s s' /\
  monitor_timers s' = monitor_timers s /\
  (timers_fresh s -> timers_fresh s').
Proof.
  intros s'.
  assert (tick_frame s s') as Hframe
    by (apply tick_frame_checkDatabase, tick_frame_refl).
  split_and!; [exact Hframe|by apply monitor_timers_frame|].
  intros Hfresh. by apply (tick_frame_fresh s).
Qed.

Lemma start_eq fuel s :
  MonitorControl.start fuel s =
  if isRunning (monitor s) then (Ok tt, s)
  else Monitor.checkDatabase fuel (armed s).
Proof.
  unfold MonitorControl.start, setInterval.
  unfold mbind, M_bind, gets, modify, mret, M_ret. simpl.
  destruct (isRunning (monitor s)); reflexivity.
Qed.

Lemma stop_eq s :
  MonitorControl.stop s =
  (Ok tt,
   if isRunning (monitor s) then
     match monitorInterval (monitor s) with
     | Some h =>
         with_monitor (with_monitorInterval None)
           (with_timers (filter (fun t => handle t ≠ h))
              (with_monitor (with_isRunning false) s))
     | None => with_monitor (with_isRunning false) s
     end
   else s).
Proof.
  unfold MonitorControl.stop, clearInterval.
  unfold mbind, M_bind, gets, modify, mret, M_ret. simpl.
  destruct (isRunning (monitor s)); simpl; [|reflexivity].
  destruct (monitorInterval (monitor s)); reflexivity.
Qed.

Lemma monitor_timers_armed s :
  monitor_timers (armed s) =
  monitor_timers s ++ [{| handle := nextHandle s; kind := MonitorTimer;
                          period := checkInterval (api config) |}].
Proof.
  unfold monitor_timers. simpl. by rewrite filter_app.
Qed.

Lemma timers_fresh_armed s : timers_fresh s -> timers_fresh (armed s).
Proof.
  intros [Hnd Hfresh]. unfold timers_fresh. simpl. split.
  - rewrite map_app. simpl. apply NoDup_app. split_and!; [exact Hnd| |apply NoDup_singleton].
    intros h Hin ->%list_elem_of_singleton.
    apply list_elem_of_fmap in Hin as (t & Hh & Hin).
    rewrite Forall_forall in Hfresh. specialize (Hfresh t Hin). lia.
  - apply Forall_app. split.
    + eapply Forall_impl; [exact Hfresh|]. simpl. intros t ?. lia.
    + constructor; [simpl; lia|constructor].
Qed.

(** X16. Starting a stopped scheduler sets it running, arms one timer
    with period [config.api.checkInterval] and performs one check at once:
    the records pending at that moment are picked. Starting a running
    scheduler changes nothing: no second timer, no extra check. *)
Theorem start_arms_one_timer (fuel : nat) (s : Sys) (records : list CteRecord) :
  (retryAttempts (tasks config) < fuel)%nat ->
  isRunning (monitor s) = false ->
  monitor_timers s = [] ->
  pending (env s) = Some records ->
  let s' := (MonitorControl.start fuel s).2 in
  (MonitorControl.start fuel s).1 = Ok tt /\
  isRunning (monitor s') = true /\
  monitorInterval (monitor s') = Some (nextHandle s) /\
  monitor_timers s' =
    [{| handle := nextHandle s; kind := MonitorTimer;
        period := checkInterval (api config) |}] /\
  (exists tr, trace s' = trace s ++ tr /\ picks tr = map id records) /\
  MonitorControl.start fuel s' = (Ok tt, s').
Proof.
  intros Hfuel Hstopped Hnone Hpend s'. unfold s'.
  rewrite start_eq, Hstopped.
  destruct (checkDatabase_frame fuel (armed s))
    as ((extra & _ & _ & _ & _ & Hrun & Hmi) & Hmt).
  simpl in Hrun, Hmi.
  split_and!.
  - by apply checkDatabase_ok.
  - exact Hrun.
  - exact Hmi.
  - rewrite Hmt, monitor_timers_armed, Hnone. reflexivity.
  - rewrite (checkDatabase_eq fuel (armed s) records Hfuel Hpend). simpl.
    destruct (for_each_processRecord fuel records (stamped (armed s)) Hfuel)
      as (_ & tr & Htr & Hp).
    exists tr. split; [exact Htr|exact Hp].
  - by rewrite start_eq, Hrun.
Qed.

(** X17. Stopping a stopped scheduler changes nothing. Stopping after a
    start removes the scheduler's timer and clears the running flag, and
    that is all: the counter keeps its value and the scan timers armed
    meanwhile keep running, so the watch loop outlives the scheduler. *)
Theorem stop_leaves_watch_loop (fuel : nat) (s : Sys) :
  timers_fresh s ->
  isRunning (monitor s) = false ->
  let s1 := (MonitorControl.start fuel s).2 in
  let s2 := (MonitorControl.stop s1).2 in
  MonitorControl.stop s = (Ok tt, s) /\
  isRunning (monitor s2) = false /\
  monitorInterval (monitor s2) = None /\
  monitor_timers s2 = monitor_timers s /\
  scan_timers s2 = scan_timers s1 /\
  processedCount (monitor s2) = processedCount (monitor s1) /\
  executor s2 = executor s1.
Proof.
  intros Hfresh Hstopped s1 s2. unfold s2, s1.
  rewrite start_eq, !stop_eq, Hstopped. simpl.
  destruct (checkDatabase_frame fuel (armed s))
    as ((extra & Ht & _ & Hall & _ & Hrun & Hmi) & Hmt).
  simpl in Ht, Hall, Hrun, Hmi. rewrite Hrun, Hmi. simpl.
  destruct Hfresh as [_ Hfresh].
  assert (filter (fun t => handle t ≠ nextHandle s)
            (timers (Monitor.checkDatabase fuel (armed s)).2)
          = timers s ++ extra) as Hfilter.
  { rewrite Ht, !filter_app, filter_fresh by exact Hfresh.
    rewrite filter_cons_False by (simpl; lia). rewrite filter_nil, app_nil_r. f_equal.
    clear Ht. induction Hall as [|t extra [_ Hh] _ IH]; [done|].
    rewrite filter_cons_True by lia. by rewrite IH. }
  split_and!; try reflexivity.
  - unfold monitor_timers. simpl. rewrite Hfilter, filter_app.
    assert (filter (fun t => kind t = MonitorTimer) extra = []) as ->.
    { clear Ht Hfilter. induction Hall as [|t extra [Hk _] _ IH]; [done|].
      rewrite filter_cons_False by (rewrite Hk; done). exact IH. }
    by rewrite app_nil_r.
  - unfold scan_timers. simpl. rewrite Hfilter, Ht, !filter_app.
    rewrite filter_cons_False by done. by rewrite filter_nil, app_nil_r.
Qed.

Lemma updateInterval_eq ms s :
  MonitorControl.updateInterval ms s =
  (Ok tt,
   if isRunning (monitor s) then
     let s1 := match monitorInterval (monitor s) with
               | Some h => with_timers (filter (fun t => handle t ≠ h)) s
               | None => s
               end in
     with_monitor (with_monitorInterval (Some (nextHandle s)))
       (with_nextHandle S
          (with_timers (fun ts => ts ++
             [{| handle := nextHandle s; kind := MonitorTimer; period := ms |}]) s1))
   else s).
Proof.
  unfold MonitorControl.updateInterval, setInterval, clearInterval.
  unfold mbind, M_bind, gets, modify, mret, M_ret. simpl.
  destruct (isRunning (monitor s)); simpl; [|reflexivity].
  destruct (monitorInterval (monitor s)); reflexivity.
Qed.

Lemma filter_handle_kind (h : nat) (k : TimerKind) (ts : list Timer) :
  filter (fun t => kind t = k) (filter (fun t => handle t ≠ h) ts) =
  filter (fun t => handle t ≠ h) (filter (fun t => kind t = k) ts).
Proof.
  induction ts as [|t ts IH]; [done|].
  destruct (decide (handle t = h)) as [Hh|Hh], (decide (kind t = k)) as [Hk|Hk];
    repeat first [rewrite filter_cons_True by done | rewrite filter_cons_False by tauto];
    try rewrite IH; reflexivity.
Qed.

Lemma filter_all {A} (P : A -> Prop) `{forall x, Decision (P x)} (l : list A) :
  Forall P l -> filter P l = l.
Proof.
  induction 1 as [|x l Hx _ IH]; [done|].
  rewrite filter_cons_True by done. by rewrite IH.
Qed.

Lemma NoDup_handle_inj (ts : list Timer) (t1 t2 : Timer) :
  NoDup (map handle ts) -> t1 ∈ ts -> t2 ∈ ts -> handle t1 = handle t2 -> t1 = t2.
Proof.
  induction ts as [|t ts IH]; simpl; intros Hnd H1 H2 Hh.
  - by apply elem_of_nil in H1.
  - apply NoDup_cons in Hnd as [Hnot Hnd].
    apply elem_of_cons in H1 as [->|H1], H2 as [->|H2]; [done| | |by apply IH].
    + exfalso. apply Hnot. rewrite Hh. apply list_elem_of_fmap. by exists t2.
    + exfalso. apply Hnot. rewrite <- Hh. apply list_elem_of_fmap. by exists t1.
Qed.

Lemma NoDup_handle_filter (P : Timer -> Prop) `{forall t, Decision (P t)}
    (ts : list Timer) :
  NoDup (map handle ts) -> NoDup (map handle (filter P ts)).
Proof.
  induction ts as [|t ts IH]; simpl; intros Hnd; [done|].
  apply NoDup_cons in Hnd as [Hnot Hnd].
  destruct (decide (P t)).
  - rewrite filter_cons_True by done. simpl. apply NoDup_cons. split; [|by apply IH].
    intros Hin. apply Hnot.
    apply list_elem_of_fmap in Hin as (t' & -> & Hin).
    apply list_elem_of_filter in Hin as [_ Hin].
    apply list_elem_of_fmap. by exists t'.
  - rewrite filter_cons_False by done. by apply IH.
Qed.

Lemma filter_other_handle (h : nat) (k : TimerKind) (p : Z) (ts : list Timer) :
  NoDup (map handle ts) ->
  {| handle := h; kind := k; period := p |} ∈ ts ->
  k ≠ ScanTimer ->
  filter (fun t => handle t ≠ h) (filter (fun t => kind t = ScanTimer) ts) =
  filter (fun t => kind t = ScanTimer) ts.
Proof.
  intros Hnd Hin Hk. apply filter_all. apply Forall_forall. intros t Ht.
  apply list_elem_of_filter in Ht as [Hscan Ht]. intros Hh.
  pose proof (NoDup_handle_inj ts t _ Hnd Ht Hin Hh) as ->. simpl in Hscan. done.
Qed.

(** X18. [updateInterval] never throws. On a stopped scheduler it does
    nothing. On a running one it replaces the scheduler's timer by one with
    the new period, so that there is still exactly one; the scan timers
    stay. *)
Theorem updateInterval_replaces_timer (ms : Z) (s : Sys) :
  let s' := (MonitorControl.updateInterval ms s).2 in
  (MonitorControl.updateInterval ms s).1 = Ok tt /\
  (isRunning (monitor s) = false -> s' = s) /\
  (isRunning (monitor s) = true ->
   forall (h : nat) (p : Z),
   timers_fresh s ->
   monitorInterval (monitor s) = Some h ->
   monitor_timers s = [{| handle := h; kind := MonitorTimer; period := p |}] ->
   monitor_timers s' = [{| handle := nextHandle s; kind := MonitorTimer; period := ms |}] /\
   monitorInterval (monitor s') = Some (nextHandle s) /\
   isRunning (monitor s') = true /\
   scan_timers s' = scan_timers s /\
   timers_fresh s').
Proof.
  intros s'. unfold s'. rewrite updateInterval_eq. simpl.
  split; [reflexivity|]. split; [by intros ->|].
  intros Hrun h p [Hnd Hfresh] Hmi Hmt. rewrite Hrun, Hmi. simpl.
  assert ({| handle := h; kind := MonitorTimer; period := p |} ∈ timers s) as Hin.
  { assert ({| handle := h; kind := MonitorTimer; period := p |} ∈ monitor_timers s) as Hm
      by (rewrite Hmt; apply list_elem_of_singleton; reflexivity).
    unfold monitor_timers in Hm. by apply list_elem_of_filter in Hm as [_ ?]. }
  split_and!.
  - unfold monitor_timers in *. simpl. rewrite filter_app, filter_handle_kind, Hmt.
    rewrite filter_cons_False by (simpl; tauto).
    by rewrite filter_cons_True.
  - reflexivity.
  - exact Hrun.
  - unfold scan_timers. simpl. rewrite filter_app.
    rewrite filter_cons_False by done. rewrite app_nil_r.
    rewrite filter_handle_kind. apply filter_other_handle with (k := MonitorTimer) (p := p);
      [exact Hnd|exact Hin|done].
  - unfold timers_fresh. simpl. split.
    + rewrite map_app. simpl. apply NoDup_app.
      split_and!; [|  |apply NoDup_singleton].
      * by apply NoDup_handle_filter.
      * intros h' Hin' ->%list_elem_of_singleton.
        apply list_elem_of_fmap in Hin' as (t & Hh & Hin').
        apply list_elem_of_filter in Hin' as [_ Hin'].
        rewrite Forall_forall in Hfresh. specialize (Hfresh t Hin'). lia.
    + apply Forall_app. split.
      * apply Forall_forall. intros t Ht. apply list_elem_of_filter in Ht as [_ Ht].
        rewrite Forall_forall in Hfresh. specialize (Hfresh t Ht). simpl. lia.
      * constructor; [simpl; lia|constructor].
Qed.
End SchedulerExtras.


Lemma scheduler_marks_on_relocation_witness :
  let s := system_of Tasks.new_TaskExecutor (outside (Host := arriving_host) quiet_env) in
  exists s',
    @Monitor.processRecord idle_host 1 example_record s = (Ok tt, s') /\
    trace s' = [] ++
      [RecordPicked 7; TaskStarted 7; Mkdir "./xml/cnpj/12345678000199";
       Mkdir "./xml/cnpj/12345678000199/processados";
       Renamed (source_of example_key)
         ("./xml/cnpj/12345678000199/" +:+ example_key +:+ ".xml");
       StorePut 7] /\
    JsMap.get 7%Z (processingFiles (executor s')) = Some example_entry /\
    processedCount (monitor s') = (0 + 1)%nat.
Proof.
  apply (@scheduler_marks_on_relocation idle_host 0 example_record
           (system_of Tasks.new_TaskExecutor (outside (Host := arriving_host) quiet_env))
           "<CTe/>").
  - reflexivity.
  - reflexivity.
  - reflexivity.
  - vm_compute. reflexivity.
  - reflexivity.
  - reflexivity.
  - reflexivity.
Defined.

Lemma tick_counts_at_most_batch_witness :
  let s := system_of Tasks.new_TaskExecutor batch_env in
  (processedCount (monitor s) <=
   processedCount (monitor (@Monitor.checkDatabase idle_host 4 s).2) <=
   processedCount (monitor s) + List.length batch)%nat.
Proof.
  apply (@tick_counts_at_most_batch idle_host 4
           (system_of Tasks.new_TaskExecutor batch_env) batch).
  - vm_compute. lia.
  - reflexivity.
Defined.

Lemma start_arms_one_timer_witness :
  let s := stopped_system batch_env in
  let s' := (@MonitorControl.start idle_host 4 s).2 in
  (@MonitorControl.start idle_host 4 s).1 = Ok tt /\
  isRunning (monitor s') = true /\
  monitorInterval (monitor s') = Some 0%nat /\
  monitor_timers s' = [{| handle := 0; kind := MonitorTimer; period := 60000 |}] /\
  (exists tr, trace s' = [] ++ tr /\ picks tr = map id batch) /\
  @MonitorControl.start idle_host 4 s' = (Ok tt, s').
Proof.
  apply (@start_arms_one_timer idle_host 4 (stopped_system batch_env) batch).
  - vm_compute. lia.
  - reflexivity.
  - reflexivity.
  - reflexivity.
Defined.

Lemma stop_leaves_watch_loop_witness :
  let s := stopped_system batch_env in
  let s1 := (@MonitorControl.start idle_host 4 s).2 in
  let s2 := (MonitorControl.stop s1).2 in
  MonitorControl.stop s = (Ok tt, s) /\
  isRunning (monitor s2) = false /\
  monitorInterval (monitor s2) = None /\
  monitor_timers s2 = monitor_timers s /\
  scan_timers s2 = scan_timers s1 /\
  processedCount (monitor s2) = processedCount (monitor s1) /\
  executor s2 = executor s1.
Proof.
  apply (@stop_leaves_watch_loop idle_host 4 (stopped_system batch_env)).
  - split; [apply NoDup_nil_2|apply Forall_nil_2].
  - reflexivity.
Defined.

Lemma updateInterval_replaces_timer_witness :
  (MonitorControl.updateInterval 20000 (stopped_system quiet_env)).2
    = stopped_system quiet_env /\
  let s' := (MonitorControl.updateInterval 20000 running_system).2 in
  monitor_timers s' = [{| handle := 1; kind := MonitorTimer; period := 20000 |}] /\
  monitorInterval (monitor s') = Some 1%nat /\
  isRunning (monitor s') = true /\
  scan_timers s' = scan_timers running_system /\
  timers_fresh s'.
Proof.
  split.
  - destruct (updateInterval_replaces_timer 20000 (stopped_system quiet_env))
      as (_ & Hstopped & _).
    apply Hstopped. reflexivity.
  - destruct (updateInterval_replaces_timer 20000 running_system)
      as (_ & _ & Hrunning).
    apply (Hrunning eq_refl 0%nat 60000%Z).
    + split; [apply (bool_decide_unpack _); vm_compute; exact I|].
      repeat constructor.
    + reflexivity.
    + reflexivity.
Defined.

(** ** The interval route *)

(** X22. The route accepts an interval exactly when it lies between 10000
    and 3600000 ms. A rejected request changes neither the configuration
    nor the state. An accepted one stores the interval in the
    configuration, keeps the rest of it, and hands the interval to
    [updateInterval]: on a stopped scheduler the state is unchanged and no
    timer is armed. *)
Theorem interval_route_validates (h : Host) (interval : option Z) (s : Sys) :
  let result := Web.post_config_interval h interval s in
  (result.1.1 = 200%nat <->
   exists i, interval = Some i /\ (10000 <= i <= 3600000)%Z) /\
  (result.1.1 ≠ 200%nat -> result = (400%nat, h, s)) /\
  (forall i, interval = Some i -> result.1.1 = 200%nat ->
     checkInterval (api (@config result.1.2)) = i /\
     tasks (@config result.1.2) = tasks (@config h) /\
     xmlProcessing (@config result.1.2) = xmlProcessing (@config h) /\
     result.2 = (MonitorControl.updateInterval i s).2 /\
     (isRunning (monitor s) = false -> result.2 = s)).
Proof.
  unfold Web.post_config_interval. destruct interval as [i|]; simpl.
  2:{ split_and!; try done. split; [done|]. by intros (i & ? & _). }
  destruct (Z.eqb_spec i 0) as [->|Hnz]; simpl.
  { split_and!; try done. split; [done|]. intros (i & [= <-] & ?). lia. }
  destruct (Z.leb_spec 10000 i); simpl.
  2:{ split_and!; try done. split; [done|]. intros (i' & [= <-] & ?). lia. }
  destruct (Z.leb_spec i 3600000); simpl.
  2:{ split_and!; try done. split; [done|]. intros (i' & [= <-] & ?). lia. }
  split_and!.
  - split; [|done]. intros _. exists i. split; [done|lia].
  - done.
  - intros i' [= <-] _. split_and!; try reflexivity.
    intros Hstopped. by rewrite updateInterval_eq, Hstopped.
Qed.

(** ** The client *)

Lemma replace_id (x : string) :
  Database.replace "{id}" x Database.endpoint_updateStatus =
  "/cte-documentos/" +:+ x +:+ "/status".
Proof. reflexivity. Qed.

(** X23. [connect] succeeds exactly when the probe of the stats endpoint
    answers ok with a body that parses. Then the client is connected and
    the setup request has been sent; whatever the setup request gives, it
    does not fail the connection. Otherwise [connect] throws, the client
    is not connected, and only the probe has been sent. *)
Theorem connect_follows_probe (remote : Database.Remote) (st : Database.ApiState) :
  let result := Database.connect remote st in
  (result.1 = Database.DbOk true <->
   Database.stats_reply remote = Database.OkBody (Some tt)) /\
  (result.1 = Database.DbOk true ->
   Database.isConnected result.2 = true /\
   Database.sent result.2 = Database.sent st ++ [Database.GetStats; Database.PostSetup]) /\
  (result.1 ≠ Database.DbOk true ->
   (exists t, result.1 = Database.DbThrow (Database.ConnectFailed t)) /\
   Database.isConnected result.2 = false /\
   Database.sent result.2 = Database.sent st ++ [Database.GetStats]).
Proof.
  unfold Database.connect, Database.testConnection.
  destruct (Database.stats_reply remote) as [|status|[[]|]]; simpl;
    (split_and!; [split; done| |]); try done.
  - intros _. split_and!; [by eexists|done|done].
  - intros _. split_and!; [by eexists|done|done].
  - intros _. split; [done|]. by rewrite <- app_assoc.
  - intros _. split_and!; [by eexists|done|done].
Qed.

(** X24. [getRecordsToProcess] probes only when the client is not
    connected. Connected, it sends the one request for the pending
    records and stays connected whatever the answer. Not connected with a
    failing probe, it throws without asking for the records. When it
    returns records, they are the body the server sent and the client is
    connected. *)
Theorem fetch_connects_first (remote : Database.Remote) (st : Database.ApiState) :
  let result := Database.getRecordsToProcess remote st in
  (Database.isConnected st = true ->
   Database.sent result.2 = Database.sent st ++ [Database.GetPendentes] /\
   Database.isConnected result.2 = true) /\
  (Database.isConnected st = false ->
   Database.stats_reply remote ≠ Database.OkBody (Some tt) ->
   (exists t, result.1 = Database.DbThrow (Database.ConnectFailed t)) /\
   Database.sent result.2 = Database.sent st ++ [Database.GetStats] /\
   Database.isConnected result.2 = false) /\
  (forall records, result.1 = Database.DbOk records ->
   Database.pendentes_reply remote = Database.OkBody (Some records) /\
   Database.isConnected result.2 = true).
Proof.
  unfold Database.getRecordsToProcess, Database.connect, Database.testConnection.
  destruct (Database.isConnected st) eqn:Hc; simpl.
  - split_and!; [|done|].
    + intros _. destruct (Database.pendentes_reply remote) as [| |[|]]; by simpl.
    + intros records.
      destruct (Database.pendentes_reply remote) as [| |[|]]; simpl; try done.
      by intros [= ->].
  - split_and!; [done| |].
    + intros _ Hprobe.
      destruct (Database.stats_reply remote) as [|status|[[]|]]; simpl;
        try done; split_and!; try done; by eexists.
    + intros records.
      destruct (Database.stats_reply remote) as [|status|[[]|]]; simpl; try done.
      destruct (Database.pendentes_reply remote) as [| |[|]]; simpl; try done.
      by intros [= ->].
Qed.

(** X25. [markAsProcessed] sends exactly one request, a PUT to
    [baseUrl/cte-documentos/<id>/status], whether the client is connected
    or not, and leaves the connection flag alone. It throws exactly when the
    transport fails, the status is not ok or the body does not parse. *)
Theorem markAsProcessed_sends_one_put (base : string) (remote : Database.Remote)
    (recordId : Z) (st : Database.ApiState) :
  let result := Database.markAsProcessed base remote recordId st in
  Database.sent result.2 =
    Database.sent st ++
    [Database.PutStatus (base +:+ "/cte-documentos/" +:+ pretty recordId +:+ "/status")] /\
  Database.isConnected result.2 = Database.isConnected st /\
  ((exists success, result.1 = Database.DbOk success) <->
   (exists success, Database.put_reply remote recordId = Database.OkBody (Some success))).
Proof.
  unfold Database.markAsProcessed. rewrite replace_id.
  destruct (Database.put_reply remote recordId) as [|status|[success|]]; simpl;
    (split_and!; [done|done|]).
  - split; intros [? ?]; done.
  - split; intros [? ?]; done.
  - split; intros _; by eexists.
  - split; intros [? ?]; done.
Qed.
